(** * quad_trajectories: position functions and horizon utilities

    A shallow embedding of [quad_trajectories/core.py],
    [quad_trajectories/types.py] and [quad_trajectories/utils.py].

    Modelling conventions.
    - A Python [float] (IEEE double) is a real number of [R]: rounding and
      overflow are not modelled, every arithmetic operation is the exact one.
    - A Python [int] is a [Z]; [Optional[T]] is [option T].
    - A raised exception is the [Raise] case of [result]; the exception
      carries the place that raised it, and [exn_class] gives its Python
      class.
    - The [jit] wrapper of [jax_utils.py] compiles and caches a function.
      What it changes for a caller is the check of the arguments
      ([jit_call]): every argument that is not named static must be a number
      or an array. The position functions of [core.py] name [ctx] static and
      receive a number as [t], so the check always passes
      ([position_jit_accepts]) and each one is modelled by its body;
      [generate_horizon_positions] of [utils.py] is wrapped without static
      names and is modelled with the check. The keyword handling of the
      wrapper itself is modelled apart, in [JitWrapper].
    - [jnp.array([x, y, z, yaw])] is the record [Vec4]; a stacked batch of
      rows is a [list]. *)

From Stdlib Require Import String.
From Stdlib Require Import Reals.Reals Reals.R_Ifp.
From Stdlib Require Import ZArith List Bool Lra Lia.
Import ListNotations.

Open Scope R_scope.

(** ** Exceptions and results *)

Inductive PyExc : Type :=
| ValueError
| RuntimeError
| TypeError.

(** One constructor per [raise] site that a call of the modelled code can
    reach, in the package or in the array library it calls. *)
Inductive exn : Type :=
| HoverNotFound (mode : Z)     (* ValueError(f"hover_dict #{mode} not found") *)
| HoverHardwareOnly            (* RuntimeError("hover modes 5+ not available for hardware") *)
| NumStepsTooSmall             (* ValueError("num_steps must be >= 1") *)
| LinspaceNegative (num : Z)   (* ValueError raised by jnp.linspace for num < 0 *)
| WhereNotArrayLike            (* TypeError raised by jnp.where for a None argument *)
| JitNotArrayLike (name : string).
                               (* TypeError raised by jax.jit for an argument
                                  that is neither static nor a number or array *)

Definition exn_class (e : exn) : PyExc :=
  match e with
  | HoverNotFound _ => ValueError
  | HoverHardwareOnly => RuntimeError
  | NumStepsTooSmall => ValueError
  | LinspaceNegative _ => ValueError
  | WhereNotArrayLike => TypeError
  | JitNotArrayLike _ => TypeError
  end.

Inductive result (A : Type) : Type :=
| Ok (a : A)
| Raise (e : exn).

Arguments Ok {A} a.
Arguments Raise {A} e.

Definition bind {A B : Type} (r : result A) (k : A -> result B) : result B :=
  match r with
  | Ok a => k a
  | Raise e => Raise e
  end.

Notation "x <- r ;; k" := (bind r (fun x => k))
  (at level 61, r at next level, right associativity).

Definition result_map {A B : Type} (g : A -> B) (r : result A) : result B :=
  x <- r ;; Ok (g x).

Definition is_ok {A : Type} (r : result A) : bool :=
  match r with
  | Ok _ => true
  | Raise _ => false
  end.

(** Evaluation of a function on every element of a batch, left to right;
    the first exception is the exception of the batch. *)
Fixpoint mapM {A B : Type} (g : A -> result B) (l : list A) : result (list B) :=
  match l with
  | [] => Ok []
  | a :: l' => b <- g a ;; bs <- mapM g l' ;; Ok (b :: bs)
  end.

(** ** types.py *)

Record TrajContext : Type := mkTrajContext {
  sim : bool;
  hover_mode : option Z;
  spin : option bool;
  double_speed : option bool;
  short : option bool
}.

(** Python truth value of an [Optional[bool]] field: [None] is false. *)
Definition truthy (o : option bool) : bool :=
  match o with
  | Some b => b
  | None => false
  end.

(** ** Position vectors *)

Record Vec4 : Type := mkVec4 {
  vx : R;
  vy : R;
  vz : R;
  vyaw : R
}.

Definition xyz (v : Vec4) : R * R * R := (vx v, vy v, vz v).
Definition xy (v : Vec4) : R * R := (vx v, vy v).

(** ** Array-library operations used by core.py *)

(** [jnp.floor] followed by [.astype(int)]: the source clips the floored
    float before the conversion, the model clips the integer after it. *)
Definition jnp_floor (x : R) : Z := Int_part x.

(** [x % m] on floats: the remainder has the sign of the divisor,
    [x - floor(x / m) * m]. *)
Definition jnp_mod (x m : R) : R := x - IZR (jnp_floor (x / m)) * m.

(** [jnp.clip(i, lo, hi)]. *)
Definition jnp_clip (i lo hi : Z) : Z := Z.min (Z.max i lo) hi.

(** [jnp.where(cond, a, b)] with a Python value as condition. The library
    accepts arrays and scalars only: [None] is refused with a [TypeError]
    before anything is selected. *)
Definition jnp_where_opt {A : Type} (cond : option bool) (a b : A) : result A :=
  match cond with
  | None => Raise WhereNotArrayLike
  | Some c => Ok (if c then a else b)
  end.

(** [jnp.where(x <= y, a, b)] on numbers: both branches are evaluated, one
    is selected. *)
Definition jnp_where_le {A : Type} (x y : R) (a b : A) : A :=
  if Rle_dec x y then a else b.

(** [points[i]] for an index already inside the array. *)
Definition row (points : list (R * R)) (i : Z) : R * R :=
  nth (Z.to_nat i) points (0, 0).

(** ** core.py *)

Definition SIM_HEIGHT : R := 3.0.
Definition HARDWARE_HEIGHT : R := 0.85.

(** [HARDWARE_HEIGHT if not ctx.sim else SIM_HEIGHT] *)
Definition height_of (ctx : TrajContext) : R :=
  if negb (sim ctx) then HARDWARE_HEIGHT else SIM_HEIGHT.

(** [2 * jnp.pi / period_spin if ctx.spin else 0.0] *)
Definition omega_spin_of (period_spin : R) (ctx : TrajContext) : R :=
  if truthy (spin ctx) then 2 * PI / period_spin else 0.0.

Definition hover_dict : list (Z * Vec4) :=
  [ (1%Z, mkVec4 0.0 0.0 (-0.9) 0.0);
    (2%Z, mkVec4 0.0 0.8 (-0.9) 0.0);
    (3%Z, mkVec4 0.8 0.0 (-0.8) 0.0);
    (4%Z, mkVec4 0.8 0.8 (-0.8) 0.0);
    (5%Z, mkVec4 0.0 0.0 (-10.0) 0.0);
    (6%Z, mkVec4 1.0 1.0 (-4.0) 0.0);
    (7%Z, mkVec4 0.0 10.0 (-5.0) 0.0);
    (8%Z, mkVec4 1.0 1.0 (-3.0) 0.0) ].

(** [d.get(k)] on a dict kept as its list of items. *)
Fixpoint dict_get {V : Type} (d : list (Z * V)) (k : Z) : option V :=
  match d with
  | [] => None
  | (k', v) :: d' => if Z.eqb k k' then Some v else dict_get d' k
  end.

(** The membership test [mode not in hover_dict] and the final
    [hover_dict[mode]] are one lookup: [None] is the missing key. *)
Definition hover (t : R) (ctx : TrajContext) : result Vec4 :=
  let mode := match hover_mode ctx with Some m => m | None => 1%Z end in
  match dict_get hover_dict mode with
  | None => Raise (HoverNotFound mode)
  | Some v =>
      if negb (sim ctx) && (4 <? mode)%Z then Raise HoverHardwareOnly
      else Ok v
  end.

Definition yaw_only (t : R) (ctx : TrajContext) : result Vec4 :=
  let height := height_of ctx in
  let spin_period := 20.0 in
  let spin_period :=
    if truthy (double_speed ctx) then spin_period / 2.0 else spin_period in
  let x := 0.0 in
  let y := 0.0 in
  let z := - height in
  let yaw := t / (spin_period / (2 * PI)) in
  Ok (mkVec4 x y z yaw).

Definition circle_horizontal (t : R) (ctx : TrajContext) : result Vec4 :=
  let radius := 0.6 in
  let period_pos := 13.0 in
  let height := height_of ctx in
  let period_spin := 20.0 in
  let omega_spin := omega_spin_of period_spin ctx in
  let period_pos :=
    if truthy (double_speed ctx) then period_pos / 2.0 else period_pos in
  let omega_pos := 2 * PI / period_pos in
  let x := radius * cos (omega_pos * t) in
  let y := radius * sin (omega_pos * t) in
  let z := - height in
  let yaw := omega_spin * t in
  Ok (mkVec4 x y z yaw).

Definition circle_vertical (t : R) (ctx : TrajContext) : result Vec4 :=
  let radius := 0.35 in
  let period_pos := 13.0 in
  let height := height_of ctx in
  let period_spin := 20.0 in
  let omega_spin := omega_spin_of period_spin ctx in
  let period_pos :=
    if truthy (double_speed ctx) then period_pos / 2.0 else period_pos in
  let omega_pos := 2 * PI / period_pos in
  let x := radius * cos (omega_pos * t) in
  let y := 0.0 in
  let z := - radius * sin (omega_pos * t) - height in
  let yaw := omega_spin * t in
  Ok (mkVec4 x y z yaw).

Definition fig8_horizontal (t : R) (ctx : TrajContext) : result Vec4 :=
  let radius := 0.35 in
  let period_pos := 13.0 in
  let height := height_of ctx in
  let period_spin := 20.0 in
  let omega_spin := omega_spin_of period_spin ctx in
  let period_pos :=
    if truthy (double_speed ctx) then period_pos / 2.0 else period_pos in
  let omega_pos := 2 * PI / period_pos in
  let x := radius * sin (2 * omega_pos * t) in
  let y := radius * sin (omega_pos * t) in
  let z := - height in
  let yaw := omega_spin * t in
  Ok (mkVec4 x y z yaw).

Definition fig8_vertical (t : R) (ctx : TrajContext) : result Vec4 :=
  let radius := 0.35 in
  let period_pos := 13.0 in
  let height := height_of ctx in
  let period_spin := 20.0 in
  let omega_spin := omega_spin_of period_spin ctx in
  let period_pos :=
    if truthy (double_speed ctx) then period_pos / 2.0 else period_pos in
  let omega_pos := 2 * PI / period_pos in
  let x := 0.0 in
  let yz1 := radius * sin (omega_pos * t) in
  let yz2 := radius * sin (2 * omega_pos * t) in
  y <- jnp_where_opt (short ctx) yz1 yz2 ;;
  z <- jnp_where_opt (short ctx) (- yz2 - height) (- yz1 - height) ;;
  let yaw := omega_spin * t in
  Ok (mkVec4 x y z yaw).

Definition helix (t : R) (ctx : TrajContext) : result Vec4 :=
  let z0 := if negb (sim ctx) then HARDWARE_HEIGHT else 2.0 in
  let z_max := if negb (sim ctx) then 2.6 else SIM_HEIGHT in
  let radius := 0.6 in
  let num_turns := 3 in
  let cycle_time := 45.0 in
  let period_spin := 30.0 in
  let omega_spin := omega_spin_of period_spin ctx in
  let cycle_time :=
    if truthy (double_speed ctx) then cycle_time / 2.0 else cycle_time in
  let t_cycle := jnp_mod t cycle_time in
  let T_half := cycle_time / 2.0 in
  (* going up branch *)
  let z_up := z0 + (z_max - z0) * (t_cycle / T_half) in
  let progress_up := (z_up - z0) / (z_max - z0) in
  (* going down branch *)
  let t_down := t_cycle - T_half in
  let z_down := z_max - (z_max - z0) * (t_down / T_half) in
  let progress_down := (z_down - z0) / (z_max - z0) in
  let z := jnp_where_le t_cycle T_half z_up z_down in
  let progress := jnp_where_le t_cycle T_half progress_up progress_down in
  let theta := 2 * PI * num_turns * progress in
  let x := radius * cos theta in
  let y := radius * sin theta in
  let yaw := omega_spin * t in
  Ok (mkVec4 x y (- z) yaw).

Definition sawtooth_points : list (R * R) :=
  [ (0.0, 0.0); (0.0, 0.4); (0.4, -0.4); (0.4, 0.4); (0.4, -0.4);
    (0.0, 0.4); (0.0, -0.4); (-0.4, 0.4); (-0.4, -0.4);
    (-0.4, 0.4); (0.0, -0.4); (0.0, 0.0) ].

(** [2 if ctx.double_speed else 1] *)
Definition num_repeats_of (ctx : TrajContext) : Z :=
  if truthy (double_speed ctx) then 2%Z else 1%Z.

(** Segment duration of [sawtooth]: [flight_time / num_repeats / num_segments]. *)
Definition sawtooth_T_seg (ctx : TrajContext) : R :=
  let flight_time := 120.0 in
  let adjusted_flight_time := flight_time / IZR (num_repeats_of ctx) in
  let num_segments := (Z.of_nat (length sawtooth_points) - 1)%Z in
  adjusted_flight_time / IZR num_segments.

Definition sawtooth (t : R) (ctx : TrajContext) : result Vec4 :=
  let height := height_of ctx in
  let period_spin := 30.0 in
  let omega_spin := omega_spin_of period_spin ctx in
  let points := sawtooth_points in
  let num_segments := (Z.of_nat (length points) - 1)%Z in
  let T_seg := sawtooth_T_seg ctx in
  let cycle_time := jnp_mod t (IZR num_segments * T_seg) in
  let segment_idx := jnp_floor (cycle_time / T_seg) in
  let segment_idx := jnp_clip segment_idx 0 (num_segments - 1) in
  let local_time := cycle_time - IZR segment_idx * T_seg in
  let start_point := row points segment_idx in
  let end_point :=
    row points ((segment_idx + 1) mod Z.of_nat (length points))%Z in
  let alpha := local_time / T_seg in
  let x := fst start_point + (fst end_point - fst start_point) * alpha in
  let y := snd start_point + (snd end_point - snd start_point) * alpha in
  let z := - height in
  let yaw := omega_spin * t in
  Ok (mkVec4 x y z yaw).

Definition triangle_side_length : R := 0.8.

(** [jnp.sqrt(side_length**2 - (side_length/2)**2)] *)
Definition triangle_h : R :=
  sqrt (triangle_side_length ^ 2 - (triangle_side_length / 2) ^ 2).

Definition triangle_points : list (R * R) :=
  [ (0.0, triangle_h / 2);
    (triangle_side_length / 2, - triangle_h / 2);
    (- triangle_side_length / 2, - triangle_h / 2) ].

(** Segment duration of [triangle]: [flight_time / (3 * num_repeats)]. *)
Definition triangle_T_seg (ctx : TrajContext) : R :=
  let flight_time := 60.0 in
  flight_time / IZR (3 * num_repeats_of ctx).

Definition triangle (t : R) (ctx : TrajContext) : result Vec4 :=
  let height := height_of ctx in
  let period_spin := 20.0 in
  let omega_spin := omega_spin_of period_spin ctx in
  let points := triangle_points in
  let T_seg := triangle_T_seg ctx in
  let cycle_time := jnp_mod t (3 * T_seg) in
  let segment_idx := jnp_floor (cycle_time / T_seg) in
  let segment_idx := jnp_clip segment_idx 0 2 in
  let local_time := cycle_time - IZR segment_idx * T_seg in
  let start_point := row points segment_idx in
  let end_point := row points ((segment_idx + 1) mod 3)%Z in
  let alpha := local_time / T_seg in
  let x := fst start_point + (fst end_point - fst start_point) * alpha in
  let y := snd start_point + (snd end_point - snd start_point) * alpha in
  let z := - height in
  let yaw := omega_spin * t in
  Ok (mkVec4 x y z yaw).

(** The catalogue of types.py and the table of registry.py. *)
Inductive TrajectoryType : Type :=
| HOVER
| YAW_ONLY
| CIRCLE_HORIZONTAL
| CIRCLE_VERTICAL
| FIG8_HORIZONTAL
| FIG8_VERTICAL
| HELIX
| SAWTOOTH
| TRIANGLE.

Definition TrajectoryFunc : Type := R -> TrajContext -> result Vec4.

Definition TRAJ_REGISTRY (k : TrajectoryType) : TrajectoryFunc :=
  match k with
  | HOVER => hover
  | YAW_ONLY => yaw_only
  | CIRCLE_HORIZONTAL => circle_horizontal
  | CIRCLE_VERTICAL => circle_vertical
  | FIG8_HORIZONTAL => fig8_horizontal
  | FIG8_VERTICAL => fig8_vertical
  | HELIX => helix
  | SAWTOOTH => sawtooth
  | TRIANGLE => triangle
  end.

(** ** Array-library operations used by utils.py *)

(** [jnp.linspace(start, stop, num)] with the end point included: a negative
    [num] is refused, [num = 0] gives the empty array, [num = 1] gives
    [[start]]; otherwise sample [k < num - 1] is the convex combination
    [start * (1 - k/(num-1)) + stop * (k/(num-1))] and the last sample is
    [stop]. *)
Definition jnp_linspace (start stop : R) (num : Z) : result (list R) :=
  if (num <? 0)%Z then Raise (LinspaceNegative num)
  else
    let div := (num - 1)%Z in
    if (1 <? num)%Z then
      let inner :=
        map (fun k : nat =>
               let step := INR k / IZR div in
               start * (1 - step) + stop * step)
            (seq 0 (Z.to_nat div)) in
      Ok (inner ++ [stop])
    else if (num =? 1)%Z then Ok [start]
    else Ok [].

(** [vmap(g)(ts)] on a batch of times: [g] is traced once, on an abstract
    time, whatever the size of the batch, and an exception raised while
    tracing is the exception of the whole call. On a batch that is not empty
    this is [g] on every element; on an empty batch the one tracing is a
    call of [g] at time 0 whose value is dropped (the functions of the
    package raise, or not, independently of the time). *)
Definition vmap {B : Type} (g : R -> result B) (ts : list R) : result (list B) :=
  match ts with
  | [] => _ <- g 0 ;; Ok []
  | _ :: _ => mapM g ts
  end.

(** ** jax.jit on the arguments of a call *)

(** What [jax.jit] sees of an argument. *)
Inductive jit_arg : Type :=
| ArrayLike     (* a Python number or an array: it is traced *)
| PyObject.     (* any other object: a function, a dataclass instance *)

(** The first argument, in call order, that [jax.jit] refuses: one that is
    not named in [static_argnames] and is not a number or an array. *)
Fixpoint jit_first_refused (static_argnames : list string)
    (args : list (string * jit_arg)) : option string :=
  match args with
  | [] => None
  | (name, ArrayLike) :: rest => jit_first_refused static_argnames rest
  | (name, PyObject) :: rest =>
      if existsb (String.eqb name) static_argnames
      then jit_first_refused static_argnames rest
      else Some name
  end.

(** A call of a function wrapped by [jit]: the arguments are checked before
    the body runs. *)
Definition jit_call {A : Type} (static_argnames : list string)
    (args : list (string * jit_arg)) (body : result A) : result A :=
  match jit_first_refused static_argnames args with
  | Some name => Raise (JitNotArrayLike name)
  | None => body
  end.

(** ** utils.py *)

(** The body of [generate_horizon_positions], lines 95-100. *)
Definition generate_horizon_positions_body
    (traj_fn : TrajectoryFunc) (ctx : TrajContext)
    (t_start horizon : R) (num_steps : Z) : result (list Vec4) :=
  t_samples <-
    (if (num_steps =? 1)%Z then Ok [t_start]
     else jnp_linspace t_start (t_start + horizon) num_steps) ;;
  vmap (fun t => traj_fn t ctx) t_samples.

(** [generate_horizon_positions] as exported: the body under [@jit] with no
    static argument names, called with a position function, a context, two
    numbers and an integer. *)
Definition generate_horizon_positions
    (traj_fn : TrajectoryFunc) (ctx : TrajContext)
    (t_start horizon : R) (num_steps : Z) : result (list Vec4) :=
  jit_call []
    [ ("traj_fn", PyObject); ("ctx", PyObject); ("t_start", ArrayLike);
      ("horizon", ArrayLike); ("num_steps", ArrayLike) ]%string
    (generate_horizon_positions_body traj_fn ctx t_start horizon num_steps).

Section Autodiff.

(** The forward-mode differentiation engine is outside the package:
    [jacfwd g] is some function of the same shape as [g]. *)
Variable jacfwd : (R -> result Vec4) -> R -> result Vec4.

Definition get_velocity_fn (traj_fn : TrajectoryFunc) (ctx : TrajContext)
  : R -> result Vec4 :=
  fun t => jacfwd (fun t_ => traj_fn t_ ctx) t.

Definition get_acceleration_fn (traj_fn : TrajectoryFunc) (ctx : TrajContext)
  : R -> result Vec4 :=
  fun t => jacfwd (jacfwd (fun t_ => traj_fn t_ ctx)) t.

Definition get_pos_vel_fn (traj_fn : TrajectoryFunc) (ctx : TrajContext)
  : R -> result (Vec4 * Vec4) :=
  fun t =>
    pos <- traj_fn t ctx ;;
    vel <- jacfwd (fun t_ => traj_fn t_ ctx) t ;;
    Ok (pos, vel).

Definition generate_horizon_with_velocity
    (traj_fn : TrajectoryFunc) (ctx : TrajContext)
    (t_start horizon : R) (num_steps : Z)
  : result (list Vec4 * list Vec4) :=
  if (num_steps <=? 0)%Z then Raise NumStepsTooSmall
  else
    t_samples <-
      (if (num_steps =? 1)%Z then Ok [t_start]
       else jnp_linspace t_start (t_start + horizon) num_steps) ;;
    let one_sample := fun t : R =>
      pos <- traj_fn t ctx ;;
      vel <- jacfwd (fun t_ => traj_fn t_ ctx) t ;;
      Ok (pos, vel) in
    samples <- vmap one_sample t_samples ;;
    let '(positions, velocities) := split samples in
    Ok (positions, velocities).

Definition generate_reference_trajectory
    (traj_func : TrajectoryFunc) (t_start horizon : R) (num_steps : Z)
    (ctx : TrajContext) : result (list Vec4 * list Vec4) :=
  generate_horizon_with_velocity traj_func ctx t_start horizon num_steps.

End Autodiff.

(** ** Readings of the specification, compared with the code below *)

(** Effective hover slot: [ctx.hover_mode] if set, else 1. *)
Definition spec_hover_slot (ctx : TrajContext) : Z :=
  match hover_mode ctx with
  | Some m => m
  | None => 1%Z
  end.

(** Positional period of the circles and figure-eights: 13 seconds, halved
    when [double_speed] is set. *)
Definition spec_period (ctx : TrajContext) : R :=
  match double_speed ctx with
  | Some true => 13 / 2
  | _ => 13
  end.

(** Sample [k] of a horizon of [n] steps: [t0] alone when [n = 1], else
    [t0 + k * h / (n - 1)]. *)
Definition spec_sample (t0 h : R) (n : Z) (k : nat) : R :=
  if (n =? 1)%Z then t0 else t0 + INR k * h / IZR (n - 1).

(** Height band of the helix selected by [ctx.sim]: [(z0, z_max)]. *)
Definition spec_helix_band (ctx : TrajContext) : R * R :=
  if sim ctx then (2.0, 3.0) else (0.85, 2.6).

Definition zero4 : Vec4 := mkVec4 0 0 0 0.

(** ** types.py: the string tags of the catalogue *)

(** The value of each member of [TrajectoryType]. *)
Definition tag (k : TrajectoryType) : string :=
  match k with
  | HOVER => "hover"
  | YAW_ONLY => "yaw_only"
  | CIRCLE_HORIZONTAL => "circle_horz"
  | CIRCLE_VERTICAL => "circle_vert"
  | FIG8_HORIZONTAL => "fig8_horz"
  | FIG8_VERTICAL => "fig8_vert"
  | HELIX => "helix"
  | SAWTOOTH => "sawtooth"
  | TRIANGLE => "triangle"
  end%string.

(** The members in definition order, as iteration over the class gives
    them. *)
Definition members : list TrajectoryType :=
  [ HOVER; YAW_ONLY; CIRCLE_HORIZONTAL; CIRCLE_VERTICAL; FIG8_HORIZONTAL;
    FIG8_VERTICAL; HELIX; SAWTOOTH; TRIANGLE ].

(** [TrajectoryType(s)]: the first member whose value is [s]; [None] stands
    for the refusal of a string that is no member's value. *)
Definition of_tag (s : string) : option TrajectoryType :=
  find (fun k => String.eqb (tag k) s) members.

(** ** jax_utils.py *)

Section JitWrapper.

(** [jax.jit] itself, the type of the functions it compiles, of what it
    returns and of keyword values are outside the package. *)
Variables (Fn Compiled Val : Type).
Variable jax_jit : Fn -> list (string * Val) -> Compiled.
(** The keyword value ["cpu"]. *)
Variable cpu : Val.

(** [k in kwargs] and [kwargs[k]] on the keyword dict kept as its list of
    items. *)
Fixpoint kwargs_get (kwargs : list (string * Val)) (k : string) : option Val :=
  match kwargs with
  | [] => None
  | (k', v) :: rest => if String.eqb k k' then Some v else kwargs_get rest k
  end.

(** [kwargs.setdefault(k, v)]: a key that is present keeps its value, a
    missing one is added last. *)
Definition setdefault (kwargs : list (string * Val)) (k : string) (v : Val)
  : list (string * Val) :=
  match kwargs_get kwargs k with
  | Some _ => kwargs
  | None => kwargs ++ [(k, v)]
  end.

(** What [jit] returns: a decorator when called as [@jit(...)], the compiled
    function when called as [@jit]. *)
Inductive jit_result : Type :=
| Decorator (dec : Fn -> Compiled)
| Wrapped (c : Compiled).

Definition jit (fun_ : option Fn) (kwargs : list (string * Val)) : jit_result :=
  let kwargs := setdefault kwargs "backend" cpu in
  match fun_ with
  | None => Decorator (fun f => jax_jit f kwargs)
  | Some f => Wrapped (jax_jit f kwargs)
  end.

End JitWrapper.

Arguments Decorator {Fn Compiled} dec.
Arguments Wrapped {Fn Compiled} c.

(** ** Common form of the two waypoint trajectories

    [sawtooth] and [triangle] run the same interpolation on their own list
    of points; [waypoint_xy] is that computation with the list, the number
    of segments and the segment duration as arguments. It is compared with
    both functions in [sawtooth_xy] and [triangle_xy]. *)
Definition waypoint_xy (points : list (R * R)) (num_segments : Z)
    (T_seg t : R) : R * R :=
  let cycle_time := jnp_mod t (IZR num_segments * T_seg) in
  let segment_idx := jnp_floor (cycle_time / T_seg) in
  let segment_idx := jnp_clip segment_idx 0 (num_segments - 1) in
  let local_time := cycle_time - IZR segment_idx * T_seg in
  let start_point := row points segment_idx in
  let end_point :=
    row points ((segment_idx + 1) mod Z.of_nat (length points))%Z in
  let alpha := local_time / T_seg in
  (fst start_point + (fst end_point - fst start_point) * alpha,
   snd start_point + (snd end_point - snd start_point) * alpha).

(** Linear interpolation [p + a * (q - p)] between two points. *)
Definition lerp (p q : R * R) (a : R) : R * R :=
  (fst p + (fst q - fst p) * a, snd p + (snd q - snd p) * a).

(** The spin period each position function sets for its yaw ([period_spin],
    or [spin_period] in [yaw_only]); [hover] has none and keeps yaw at 0. *)
Definition period_spin_of (k : TrajectoryType) : R :=
  match k with
  | HELIX | SAWTOOTH => 30.0
  | _ => 20.0
  end.

(** ** Altitude and progress of the helix

    The part of [helix] that computes the altitude [z] and the fraction
    [progress] of the climb, with the two heights and the cycle duration as
    arguments. It is compared with [helix] in [helix_form]. *)
Definition helix_zp (z0 z_max cycle_time t : R) : R * R :=
  let t_cycle := jnp_mod t cycle_time in
  let T_half := cycle_time / 2.0 in
  let z_up := z0 + (z_max - z0) * (t_cycle / T_half) in
  let progress_up := (z_up - z0) / (z_max - z0) in
  let t_down := t_cycle - T_half in
  let z_down := z_max - (z_max - z0) * (t_down / T_half) in
  let progress_down := (z_down - z0) / (z_max - z0) in
  let z := jnp_where_le t_cycle T_half z_up z_down in
  let progress := jnp_where_le t_cycle T_half progress_up progress_down in
  (z, progress).

(** The heights and the cycle duration that [helix] selects. *)
Definition helix_z0 (ctx : TrajContext) : R :=
  if negb (sim ctx) then HARDWARE_HEIGHT else 2.0.
Definition helix_z_max (ctx : TrajContext) : R :=
  if negb (sim ctx) then 2.6 else SIM_HEIGHT.
Definition helix_cycle (ctx : TrajContext) : R :=
  if truthy (double_speed ctx) then 45.0 / 2.0 else 45.0.

(** Squared distance between two points of the plane. *)
Definition dist2 (p q : R * R) : R :=
  (fst p - fst q) ^ 2 + (snd p - snd q) ^ 2.

(** Both calls return, and the x, y, z components returned at [t + P] are
    those returned at [t]. *)
Definition same_xyz_after (f : TrajectoryFunc) (P t : R) (ctx : TrajContext)
  : Prop :=
  exists v v' : Vec4,
    f t ctx = Ok v /\ f (t + P) ctx = Ok v' /\ xyz v' = xyz v.

(** * Properties *)

(** ** hover *)

(** Case analysis on the first key comparison left in the goal. *)
Ltac case_key :=
  match goal with
  | |- context [Z.eqb ?m ?k] => destruct (Z.eqb_spec m k) as [-> | ?]
  end.

Lemma hover_dict_keys (m : Z) :
  dict_get hover_dict m <> None <-> (1 <= m <= 8)%Z.
Proof.
  unfold hover_dict; cbn [dict_get].
  repeat (case_key; [ split; [ intros _; lia | intros _; discriminate ] | ]).
  split; [ intros H; exfalso; now apply H | lia ].
Qed.

Lemma hover_dict_yaw (m : Z) (v : Vec4) :
  dict_get hover_dict m = Some v -> vyaw v = 0.
Proof.
  unfold hover_dict; cbn [dict_get].
  repeat (case_key; [ intros [= <-]; cbn [vyaw]; lra | ]).
  discriminate.
Qed.

Lemma hover_dict_size : length hover_dict = 8%nat.
Proof. reflexivity. Qed.

Lemma Vec4_eq (a b c d a' b' c' d' : R) :
  a = a' -> b = b' -> c = c' -> d = d' -> mkVec4 a b c d = mkVec4 a' b' c' d'.
Proof. intros; subst; reflexivity. Qed.

Lemma hover_not_found (t : R) (ctx : TrajContext) :
  (spec_hover_slot ctx < 1 \/ 8 < spec_hover_slot ctx)%Z ->
  hover t ctx = Raise (HoverNotFound (spec_hover_slot ctx)).
Proof.
  intros Hout. unfold hover. fold (spec_hover_slot ctx).
  destruct (dict_get hover_dict (spec_hover_slot ctx)) eqn:E; [ | reflexivity ].
  assert (dict_get hover_dict (spec_hover_slot ctx) <> None) as Hin by congruence.
  apply hover_dict_keys in Hin. lia.
Qed.

Lemma hover_in_table (t : R) (ctx : TrajContext) :
  (1 <= spec_hover_slot ctx <= 8)%Z ->
  exists v,
    dict_get hover_dict (spec_hover_slot ctx) = Some v /\
    hover t ctx =
      (if negb (sim ctx) && (4 <? spec_hover_slot ctx)%Z
       then Raise HoverHardwareOnly else Ok v).
Proof.
  intros Hin. apply hover_dict_keys in Hin.
  unfold hover. fold (spec_hover_slot ctx).
  destruct (dict_get hover_dict (spec_hover_slot ctx)) as [v | ];
    [ | congruence ].
  exists v. split; reflexivity.
Qed.

(** C4. With [m] the effective hover slot ([ctx.hover_mode] if set, else 1),
    the three cases of [hover t ctx], in the order the code tests them:
    it raises the invalid-configuration error (the [ValueError] of a slot
    that is not found) if [m] is outside [1,8]; for a slot of the table it
    raises the hardware-incompatibility error (the [RuntimeError]) if
    [ctx.sim] is false and [m > 4]; and otherwise it succeeds and returns the
    vector stored for slot [m] in the table of eight slots, which does not
    depend on [t] and whose yaw component is 0. *)
Theorem hover_cases (t : R) (ctx : TrajContext) :
  ((spec_hover_slot ctx < 1 \/ 8 < spec_hover_slot ctx)%Z ->
     hover t ctx = Raise (HoverNotFound (spec_hover_slot ctx))
     /\ exn_class (HoverNotFound (spec_hover_slot ctx)) = ValueError) /\
  ((1 <= spec_hover_slot ctx <= 8)%Z ->
   sim ctx = false -> (4 < spec_hover_slot ctx)%Z ->
     hover t ctx = Raise HoverHardwareOnly
     /\ exn_class HoverHardwareOnly = RuntimeError) /\
  ((1 <= spec_hover_slot ctx <= 8)%Z ->
   sim ctx = true \/ (spec_hover_slot ctx <= 4)%Z ->
     exists v, dict_get hover_dict (spec_hover_slot ctx) = Some v
               /\ hover t ctx = Ok v /\ vyaw v = 0).
Proof.
  split; [ | split ].
  - intros Hout. split; [ now apply hover_not_found | reflexivity ].
  - intros Hin Hsim Hgt. split; [ | reflexivity ].
    destruct (hover_in_table t ctx Hin) as (v & _ & ->).
    rewrite Hsim. cbn [negb andb].
    destruct (Z.ltb_spec 4 (spec_hover_slot ctx)); [ reflexivity | lia ].
  - intros Hin Hok.
    destruct (hover_in_table t ctx Hin) as (v & Hv & ->).
    exists v. split; [ exact Hv | split ]; [ | now apply hover_dict_yaw in Hv ].
    destruct Hok as [-> | Hle]; cbn [negb andb]; [ reflexivity | ].
    destruct (Z.ltb_spec 4 (spec_hover_slot ctx)); [ lia | ].
    now rewrite andb_false_r.
Qed.

(** The three scenarios of the specification: slot 9; slot 5 on hardware;
    slot 5 in simulation, which is [[0, 0, -10, 0]]. *)
Lemma hover_cases_witness :
  hover 0 (mkTrajContext true (Some 9%Z) None None None)
    = Raise (HoverNotFound 9) /\
  hover 0 (mkTrajContext false (Some 5%Z) None None None)
    = Raise HoverHardwareOnly /\
  exists v,
    hover 0 (mkTrajContext true (Some 5%Z) None None None) = Ok v /\
    v = mkVec4 0.0 0.0 (-10.0) 0.0.
Proof.
  split; [ | split ].
  - apply (hover_cases 0 (mkTrajContext true (Some 9%Z) None None None)).
    cbn [spec_hover_slot hover_mode]. lia.
  - apply (hover_cases 0 (mkTrajContext false (Some 5%Z) None None None));
      cbn [spec_hover_slot hover_mode sim]; solve [ lia | reflexivity ].
  - destruct (hover_cases 0 (mkTrajContext true (Some 5%Z) None None None))
      as (_ & _ & H).
    destruct H as (v & Hv & Hh & _);
      [ cbn [spec_hover_slot hover_mode]; lia | left; reflexivity | ].
    exists v. split; [ exact Hh | ].
    cbn in Hv. now injection Hv as <-.
Defined.

(** C9. When the effective hover slot is outside [1,8], [hover] raises the
    slot-not-found error whatever [ctx.sim] is, so also when [ctx.sim] is
    false and the hardware condition [m > 4] holds as well: the slot test
    comes before the hardware test. In particular slot 0 is reported as
    not found with [sim] true and with [sim] false. *)
Theorem hover_slot_check_first (t : R) (ctx : TrajContext) :
  ((spec_hover_slot ctx < 1 \/ 8 < spec_hover_slot ctx)%Z ->
   sim ctx = false ->
     hover t ctx = Raise (HoverNotFound (spec_hover_slot ctx))
     /\ hover t ctx <> Raise HoverHardwareOnly) /\
  (spec_hover_slot ctx = 0%Z -> hover t ctx = Raise (HoverNotFound 0)).
Proof.
  split.
  - intros Hout _. rewrite (hover_not_found t ctx Hout).
    split; [ reflexivity | discriminate ].
  - intros H0. rewrite (hover_not_found t ctx); [ now rewrite H0 | lia ].
Qed.

Lemma hover_slot_check_first_witness :
  hover 0 (mkTrajContext false (Some 9%Z) None None None)
    = Raise (HoverNotFound 9) /\
  hover 0 (mkTrajContext false (Some 0%Z) None None None)
    = Raise (HoverNotFound 0) /\
  hover 0 (mkTrajContext true (Some 0%Z) None None None)
    = Raise (HoverNotFound 0).
Proof.
  split; [ | split ].
  - apply (hover_slot_check_first 0
             (mkTrajContext false (Some 9%Z) None None None));
      cbn [spec_hover_slot hover_mode sim]; solve [ lia | reflexivity ].
  - apply (hover_slot_check_first 0
             (mkTrajContext false (Some 0%Z) None None None)); reflexivity.
  - apply (hover_slot_check_first 0
             (mkTrajContext true (Some 0%Z) None None None)); reflexivity.
Defined.

(** ** Floor and remainder *)

Lemma jnp_floor_spec (x : R) (z : Z) :
  IZR z <= x < IZR z + 1 -> jnp_floor x = z.
Proof.
  intros [Hlo Hhi]. unfold jnp_floor. symmetry.
  apply Int_part_spec. lra.
Qed.

Lemma jnp_floor_bounds (x : R) :
  IZR (jnp_floor x) <= x < IZR (jnp_floor x) + 1.
Proof.
  unfold jnp_floor. destruct (base_Int_part x) as [Hlo Hhi]. lra.
Qed.

Lemma jnp_floor_IZR (z : Z) : jnp_floor (IZR z) = z.
Proof. apply jnp_floor_spec. lra. Qed.

Lemma jnp_mod_bounds (x m : R) : 0 < m -> 0 <= jnp_mod x m < m.
Proof.
  intros Hm. unfold jnp_mod.
  destruct (jnp_floor_bounds (x / m)) as [Hlo Hhi].
  set (q := IZR (jnp_floor (x / m))) in *.
  assert (Hx : x = x / m * m) by (field; lra).
  split.
  - assert (q * m <= x / m * m) by (apply Rmult_le_compat_r; lra). lra.
  - assert (x / m * m < (q + 1) * m) by (apply Rmult_lt_compat_r; lra). lra.
Qed.

Lemma div_unit_interval (r m : R) :
  0 < m -> 0 <= r < m -> 0 <= r / m < 1.
Proof.
  intros Hm [Hlo Hhi].
  assert (Hi : 0 < / m) by now apply Rinv_0_lt_compat.
  split.
  - unfold Rdiv. apply Rmult_le_pos; lra.
  - apply (Rmult_lt_reg_r m); [ exact Hm | ].
    replace (r / m * m) with r by (field; lra). lra.
Qed.

(** A time that is [r] past a whole number [j] of periods [m] has
    remainder [r]. *)
Lemma jnp_mod_shift (r m : R) (j : Z) :
  0 < m -> 0 <= r < m -> jnp_mod (r + IZR j * m) m = r.
Proof.
  intros Hm [Hlo Hhi]. unfold jnp_mod.
  rewrite (jnp_floor_spec _ j); [ lra | ].
  replace ((r + IZR j * m) / m) with (IZR j + r / m) by (field; lra).
  destruct (div_unit_interval r m Hm (conj Hlo Hhi)). lra.
Qed.

(** ** helix *)

(** The two branches of the altitude, for a remainder [tc] of the cycle [c]
    and heights [z0 < z_max]: each one stays between the two heights on its
    half of the cycle. *)
Lemma helix_up_band (z0 z_max c tc : R) :
  z0 <= z_max -> 0 < c -> 0 <= tc -> tc <= c / 2 ->
  z0 <= z0 + (z_max - z0) * (tc / (c / 2)) <= z_max.
Proof.
  intros Hz Hc Hlo Hhi.
  assert (Hu : 0 <= tc / (c / 2) <= 1).
  { destruct (Rle_lt_or_eq_dec _ _ Hhi) as [Hlt | ->].
    - destruct (div_unit_interval tc (c / 2)); lra.
    - replace (c / 2 / (c / 2)) with 1 by (field; lra). lra. }
  nra.
Qed.

Lemma helix_down_band (z0 z_max c tc : R) :
  z0 <= z_max -> 0 < c -> c / 2 < tc -> tc < c ->
  z0 <= z_max - (z_max - z0) * ((tc - c / 2) / (c / 2)) <= z_max.
Proof.
  intros Hz Hc Hlo Hhi.
  assert (Hu : 0 <= (tc - c / 2) / (c / 2) < 1)
    by (apply div_unit_interval; lra).
  nra.
Qed.

(** C10. For every [t] and every context, [helix t ctx] returns a vector
    whose third entry lies in [[-z_max, -z0]], where [(z0, z_max)] is the
    pair of heights selected by [ctx.sim]: (2.0, 3.0) in simulation and
    (0.85, 2.6) on hardware. *)
Theorem helix_altitude_band (t : R) (ctx : TrajContext) :
  exists v,
    helix t ctx = Ok v /\
    - snd (spec_helix_band ctx) <= vz v <= - fst (spec_helix_band ctx).
Proof.
  unfold helix. eexists. split; [ reflexivity | ].
  cbn [vz]. unfold spec_helix_band, SIM_HEIGHT, HARDWARE_HEIGHT.
  set (c := if truthy (double_speed ctx) then 45.0 / 2.0 else 45.0).
  assert (Hc : 0 < c) by (unfold c; destruct (truthy _); lra).
  destruct (jnp_mod_bounds t c Hc) as [Hlo Hhi].
  set (tc := jnp_mod t c) in *.
  replace (c / 2.0) with (c / 2) by lra.
  unfold jnp_where_le.
  destruct (sim ctx); cbn [negb fst snd];
    destruct (Rle_dec tc (c / 2)) as [Hle | Hgt].
  - pose proof (helix_up_band 2.0 3.0 c tc). lra.
  - pose proof (helix_down_band 2.0 3.0 c tc). lra.
  - pose proof (helix_up_band 0.85 2.6 c tc). lra.
  - pose proof (helix_down_band 0.85 2.6 c tc). lra.
Qed.

(** ** Circles and figure-eights *)

(** The positional period of the code, [13.0] halved under
    [ctx.double_speed], is the period of the specification. *)
Lemma period_pos_spec (ctx : TrajContext) :
  (if truthy (double_speed ctx) then 13.0 / 2.0 else 13.0) = spec_period ctx.
Proof.
  unfold spec_period.
  destruct (double_speed ctx) as [[|]|]; cbn [truthy]; lra.
Qed.

Lemma spec_period_pos (ctx : TrajContext) : 0 < spec_period ctx.
Proof.
  unfold spec_period. destruct (double_speed ctx) as [[|]|]; lra.
Qed.

Section Periodic.

(** One positional period [P] at the angular rate [2 * PI / P]. *)
Variable P : R.
Hypothesis P_pos : 0 < P.

Lemma phase_shift (t : R) :
  2 * PI / P * (t + P) = 2 * PI / P * t + 2 * PI.
Proof. field. lra. Qed.

Lemma cos_one_period (t : R) :
  cos (2 * PI / P * (t + P)) = cos (2 * PI / P * t).
Proof.
  rewrite phase_shift, cos_plus, cos_2PI, sin_2PI. ring.
Qed.

Lemma sin_one_period (t : R) :
  sin (2 * PI / P * (t + P)) = sin (2 * PI / P * t).
Proof.
  rewrite phase_shift, sin_plus, cos_2PI, sin_2PI. ring.
Qed.

Lemma sin_double_one_period (t : R) :
  sin (2 * (2 * PI / P) * (t + P)) = sin (2 * (2 * PI / P) * t).
Proof.
  replace (2 * (2 * PI / P) * (t + P))
    with (2 * (2 * PI / P) * t + 2 * PI + 2 * PI) by (field; lra).
  rewrite sin_plus, cos_2PI, sin_2PI.
  rewrite sin_plus, cos_2PI, sin_2PI. ring.
Qed.

End Periodic.

(** X25. [circle_horizontal], [circle_vertical] and [fig8_horizontal], for
    every context and every [t], and [fig8_vertical] for every context that
    sets [short]: the call returns at [t] and at [t + P], and the x, y, z
    components returned at [t + P] are those returned at [t], where [P] is
    13 seconds, halved when [ctx.double_speed] is set. *)
Theorem positional_period_returned (t : R) (ctx : TrajContext) :
  same_xyz_after circle_horizontal (spec_period ctx) t ctx /\
  same_xyz_after circle_vertical (spec_period ctx) t ctx /\
  same_xyz_after fig8_horizontal (spec_period ctx) t ctx /\
  (short ctx <> None ->
   same_xyz_after fig8_vertical (spec_period ctx) t ctx).
Proof.
  pose proof (spec_period_pos ctx) as HP.
  unfold same_xyz_after.
  split; [ | split; [ | split ] ].
  - unfold circle_horizontal. cbv zeta. do 2 eexists.
    split; [ reflexivity | split; [ reflexivity | ] ].
    cbn [xyz vx vy vz]. rewrite period_pos_spec.
    now rewrite cos_one_period, sin_one_period by exact HP.
  - unfold circle_vertical. cbv zeta. do 2 eexists.
    split; [ reflexivity | split; [ reflexivity | ] ].
    cbn [xyz vx vy vz]. rewrite period_pos_spec.
    now rewrite cos_one_period, sin_one_period by exact HP.
  - unfold fig8_horizontal. cbv zeta. do 2 eexists.
    split; [ reflexivity | split; [ reflexivity | ] ].
    cbn [xyz vx vy vz]. rewrite period_pos_spec.
    now rewrite sin_one_period, sin_double_one_period by exact HP.
  - intros Hs. unfold fig8_vertical. cbv zeta.
    destruct (short ctx) as [ b | ]; [ | congruence ].
    cbn [jnp_where_opt bind]. do 2 eexists.
    split; [ reflexivity | split; [ reflexivity | ] ].
    cbn [xyz vx vy vz]. rewrite period_pos_spec.
    now rewrite sin_one_period, sin_double_one_period by exact HP.
Qed.

Lemma positional_period_returned_witness :
  same_xyz_after fig8_vertical
    (spec_period (mkTrajContext true None None None (Some true))) 2
    (mkTrajContext true None None None (Some true)).
Proof.
  apply (positional_period_returned 2
           (mkTrajContext true None None None (Some true))).
  discriminate.
Defined.

(** C5 (the code departs from it). On the context [TrajContext(sim=True)],
    which leaves [short] unset, [fig8_vertical] returns no position at any
    [t], nor one period later: both calls raise the [TypeError] of
    [jnp.where], so there are no x, y, z components to compare. (Wherever
    the four functions return, the components agree:
    [positional_period_returned].) *)
Theorem fig8_vertical_period_undefined (t : R) :
  fig8_vertical t (mkTrajContext true None None None None)
    = Raise WhereNotArrayLike /\
  fig8_vertical
    (t + spec_period (mkTrajContext true None None None None))
    (mkTrajContext true None None None None)
    = Raise WhereNotArrayLike /\
  ~ same_xyz_after fig8_vertical
      (spec_period (mkTrajContext true None None None None)) t
      (mkTrajContext true None None None None).
Proof.
  split; [ reflexivity | split; [ reflexivity | ] ].
  intros (v & v' & H & _). discriminate H.
Qed.

(** C7. [circle_horizontal] at [t = 0], in simulation and with spin
    disabled (unset or false), returns exactly [[0.6, 0.0, -3.0, 0.0]]. *)
Theorem circle_horizontal_at_0 (ctx : TrajContext) :
  sim ctx = true -> truthy (spin ctx) = false ->
  circle_horizontal 0 ctx = Ok (mkVec4 0.6 0.0 (-3.0) 0.0).
Proof.
  intros Hsim Hspin. unfold circle_horizontal, omega_spin_of, height_of.
  rewrite Hsim, Hspin. cbn [negb]. f_equal.
  rewrite !Rmult_0_r, cos_0, sin_0.
  apply Vec4_eq; unfold SIM_HEIGHT; lra.
Qed.

Lemma circle_horizontal_at_0_witness :
  circle_horizontal 0 (mkTrajContext true None (Some false) None None)
    = Ok (mkVec4 0.6 0.0 (-3.0) 0.0).
Proof.
  apply (circle_horizontal_at_0
           (mkTrajContext true None (Some false) None None));
    reflexivity.
Defined.

(** ** Waypoint trajectories *)

Lemma num_repeats_cases (ctx : TrajContext) :
  num_repeats_of ctx = 1%Z \/ num_repeats_of ctx = 2%Z.
Proof. unfold num_repeats_of. destruct (truthy _); auto. Qed.

Lemma sawtooth_T_seg_pos (ctx : TrajContext) : 0 < sawtooth_T_seg ctx.
Proof.
  unfold sawtooth_T_seg. cbv zeta.
  change (Z.of_nat (length sawtooth_points) - 1)%Z with 11%Z.
  destruct (num_repeats_cases ctx) as [-> | ->]; lra.
Qed.

Lemma triangle_T_seg_pos (ctx : TrajContext) : 0 < triangle_T_seg ctx.
Proof.
  unfold triangle_T_seg. cbv zeta.
  destruct (num_repeats_cases ctx) as [-> | ->];
    [ change (3 * 1)%Z with 3%Z | change (3 * 2)%Z with 6%Z ]; lra.
Qed.

Section Boundary.

(** Segment duration [T], [n] segments in a cycle, boundary [k] of the
    cycle that starts [j] cycles after time 0. *)
Variables (T : R) (n k j : Z).
Hypothesis T_pos : 0 < T.
Hypothesis k_range : (0 <= k < n)%Z.

Lemma boundary_cycle_time :
  jnp_mod (IZR k * T + IZR j * (IZR n * T)) (IZR n * T) = IZR k * T.
Proof.
  assert (0 <= IZR k) by (apply IZR_le; lia).
  assert (IZR k < IZR n) by (apply IZR_lt; lia).
  apply jnp_mod_shift; [ nra | split; nra ].
Qed.

Lemma boundary_segment_idx :
  jnp_clip (jnp_floor (IZR k * T / T)) 0 (n - 1) = k.
Proof.
  replace (IZR k * T / T) with (IZR k) by (field; lra).
  rewrite jnp_floor_IZR. unfold jnp_clip. lia.
Qed.

Lemma boundary_alpha : (IZR k * T - IZR k * T) / T = 0.
Proof. field. lra. Qed.

End Boundary.

Lemma interpolate_at_0 (a b : R) : a + (b - a) * 0 = a.
Proof. ring. Qed.

(** C6. For [sawtooth] (12 waypoints, 11 segments) and [triangle]
    (3 vertices, 3 segments), every context, every segment boundary
    [k < num_segments] and every whole number [j] of cycles: at the time
    [k * T_seg + j * cycle], that is at [t_k = k * T_seg] modulo the cycle
    duration, the x and y components of the position are the coordinates of
    waypoint [k] of the list. *)
Theorem waypoint_pass_through (ctx : TrajContext) (k j : Z) :
  length sawtooth_points = 12%nat /\
  length triangle_points = 3%nat /\
  ((0 <= k < 11)%Z ->
     result_map xy
       (sawtooth (IZR k * sawtooth_T_seg ctx
                  + IZR j * (11 * sawtooth_T_seg ctx)) ctx)
     = Ok (row sawtooth_points k)) /\
  ((0 <= k < 3)%Z ->
     result_map xy
       (triangle (IZR k * triangle_T_seg ctx
                  + IZR j * (3 * triangle_T_seg ctx)) ctx)
     = Ok (row triangle_points k)).
Proof.
  split; [ reflexivity | split; [ reflexivity | split ] ]; intros Hk.
  - pose proof (sawtooth_T_seg_pos ctx) as HT.
    unfold sawtooth. cbv zeta.
    change (Z.of_nat (length sawtooth_points) - 1)%Z with 11%Z.
    rewrite (boundary_cycle_time _ 11 k j HT Hk).
    rewrite (boundary_segment_idx _ 11 k HT Hk).
    rewrite boundary_alpha by exact HT.
    cbn [result_map bind xy vx vy]. rewrite !interpolate_at_0.
    now destruct (row sawtooth_points k).
  - pose proof (triangle_T_seg_pos ctx) as HT.
    unfold triangle. cbv zeta.
    rewrite (boundary_cycle_time _ 3 k j HT Hk).
    pose proof (boundary_segment_idx _ 3 k HT Hk) as Hidx.
    change (3 - 1)%Z with 2%Z in Hidx. rewrite Hidx.
    rewrite boundary_alpha by exact HT.
    cbn [result_map bind xy vx vy]. rewrite !interpolate_at_0.
    now destruct (row triangle_points k).
Qed.

Lemma waypoint_pass_through_witness :
  result_map xy
    (sawtooth (IZR 2 * sawtooth_T_seg (mkTrajContext true None None None None)
               + IZR 0 * (11 * sawtooth_T_seg
                                 (mkTrajContext true None None None None)))
              (mkTrajContext true None None None None))
  = Ok (0.4, -0.4) /\
  result_map xy
    (triangle (IZR 1 * triangle_T_seg (mkTrajContext false None None None None)
               + IZR 0 * (3 * triangle_T_seg
                                (mkTrajContext false None None None None)))
              (mkTrajContext false None None None None))
  = Ok (triangle_side_length / 2, - triangle_h / 2).
Proof.
  split.
  - apply (waypoint_pass_through
             (mkTrajContext true None None None None) 2 0). lia.
  - apply (waypoint_pass_through
             (mkTrajContext false None None None None) 1 0). lia.
Defined.

(** ** Horizon utilities *)

Lemma mapM_ok_nth {A B : Type} (g : A -> result B) (da : A) (db : B)
    (l : list A) :
  forall rows : list B,
    mapM g l = Ok rows <->
    length rows = length l /\
    forall k : nat, (k < length l)%nat -> g (nth k l da) = Ok (nth k rows db).
Proof.
  induction l as [ | a l IH ]; intros rows; cbn [mapM length].
  - split.
    + intros [= <-]. split; [ reflexivity | intros k Hk; lia ].
    + intros [Hlen _]. destruct rows; [ reflexivity | discriminate ].
  - split.
    + destruct (g a) as [b | e] eqn:Ea; cbn [bind]; [ | discriminate ].
      destruct (mapM g l) as [bs | e] eqn:El; cbn [bind]; [ | discriminate ].
      intros [= <-]. destruct (proj1 (IH bs) eq_refl) as [Hlen Hnth].
      split; [ cbn [length]; lia | ].
      intros [ | k] Hk; cbn [nth]; [ exact Ea | apply Hnth; lia ].
    + intros [Hlen Hnth]. destruct rows as [ | b bs ]; [ discriminate | ].
      pose proof (Hnth 0%nat ltac:(lia)) as H0. cbn [nth] in H0.
      rewrite H0. cbn [bind].
      assert (El : mapM g l = Ok bs).
      { apply IH. split; [ cbn [length] in Hlen; lia | ].
        intros k Hk. apply (Hnth (S k)). lia. }
      rewrite El. reflexivity.
Qed.

Lemma linspace_samples (t0 h : R) (n : Z) :
  (1 < n)%Z ->
  exists ts : list R,
    jnp_linspace t0 (t0 + h) n = Ok ts /\
    length ts = Z.to_nat n /\
    forall k : nat, (k < Z.to_nat n)%nat ->
      nth k ts 0 = t0 + INR k * h / IZR (n - 1).
Proof.
  intros Hn. unfold jnp_linspace.
  destruct (Z.ltb_spec n 0); [ lia | ].
  destruct (Z.ltb_spec 1 n); [ | lia ].
  cbv zeta. eexists. split; [ reflexivity | ].
  assert (Hd : 0 < IZR (n - 1)) by (apply IZR_lt; lia).
  split.
  - rewrite length_app, length_map, length_seq. cbn [length]. lia.
  - intros k Hk.
    destruct (Nat.lt_ge_cases k (Z.to_nat (n - 1))) as [Hin | Hlast].
    + rewrite app_nth1 by (rewrite length_map, length_seq; exact Hin).
      match goal with |- context [map ?F _] => set (G := F) end.
      rewrite (nth_indep _ 0 (G 0%nat))
        by (rewrite length_map, length_seq; exact Hin).
      rewrite map_nth, seq_nth by exact Hin.
      unfold G. cbn [Nat.add]. field. lra.
    + assert (Hk' : k = Z.to_nat (n - 1)) by lia.
      rewrite app_nth2 by (rewrite length_map, length_seq; lia).
      rewrite length_map, length_seq, Hk', Nat.sub_diag. cbn [nth].
      rewrite INR_IZR_INZ, Z2Nat.id by lia. field. lra.
Qed.

(** The time samples of both horizon utilities, for [num_steps >= 1]. *)
Lemma horizon_samples (t0 h : R) (n : Z) :
  (1 <= n)%Z ->
  exists ts : list R,
    (if (n =? 1)%Z then Ok [t0] else jnp_linspace t0 (t0 + h) n) = Ok ts /\
    length ts = Z.to_nat n /\
    forall k : nat, (k < Z.to_nat n)%nat -> nth k ts 0 = spec_sample t0 h n k.
Proof.
  intros Hn. unfold spec_sample.
  destruct (Z.eqb_spec n 1) as [-> | Hne].
  - exists [t0]. split; [ reflexivity | split; [ reflexivity | ] ].
    intros k Hk. assert (k = 0%nat) as -> by lia. reflexivity.
  - apply linspace_samples. lia.
Qed.

Lemma vmap_nonempty {B : Type} (g : R -> result B) (ts : list R) :
  ts <> [] -> vmap g ts = mapM g ts.
Proof. destruct ts; [ congruence | reflexivity ]. Qed.

(** What the body of [generate_horizon_positions] computes for
    [num_steps = n >= 1], were it called without the wrapper: [rows] is its
    result exactly when it has [n] rows and row [k] is the position that [f]
    returns at sample [k], for every [k < n]. *)
Lemma horizon_positions_body_rows
    (f : TrajectoryFunc) (ctx : TrajContext) (t0 h : R) (n : Z)
    (rows : list Vec4) :
  (1 <= n)%Z ->
  (generate_horizon_positions_body f ctx t0 h n = Ok rows <->
   length rows = Z.to_nat n /\
   forall k : nat, (k < Z.to_nat n)%nat ->
     f (spec_sample t0 h n k) ctx = Ok (nth k rows zero4)).
Proof.
  intros Hn. unfold generate_horizon_positions_body.
  destruct (horizon_samples t0 h n Hn) as (ts & -> & Hlen & Hnth).
  cbn [bind].
  rewrite vmap_nonempty by (intros ->; cbn [length] in Hlen; lia).
  rewrite (mapM_ok_nth (fun t => f t ctx) 0 zero4 ts rows), Hlen.
  split; intros [Hl Hk]; (split; [ exact Hl | ]); intros k Hlt.
  - rewrite <- Hnth by exact Hlt. now apply Hk.
  - rewrite Hnth by exact Hlt. now apply Hk.
Qed.

(** The wrapper of [core.py], [@jit(static_argnames=("ctx",))], called with
    a number and a context, lets every call through to the body. *)
Lemma position_jit_accepts {A : Type} (body : result A) :
  jit_call [ "ctx"%string ]
    [ ("t"%string, ArrayLike); ("ctx"%string, PyObject) ] body = body.
Proof. reflexivity. Qed.

(** The wrapper of [generate_horizon_positions] names no static argument:
    the position function, its first argument, is refused. *)
Lemma horizon_positions_refused
    (f : TrajectoryFunc) (ctx : TrajContext) (t0 h : R) (n : Z) :
  generate_horizon_positions f ctx t0 h n = Raise (JitNotArrayLike "traj_fn").
Proof. reflexivity. Qed.

(** C3 (the code departs from it). [generate_horizon_positions] returns no
    rows: for every position function, context, start time, horizon and
    [num_steps], so also for [num_steps >= 1], the call raises the
    [TypeError] of [jax.jit], which refuses the position function as an
    argument before the body runs. (The body alone computes the rows of the
    claim: [horizon_positions_body_rows].) *)
Theorem horizon_positions_never_returns
    (f : TrajectoryFunc) (ctx : TrajContext) (t0 h : R) (n : Z) :
  generate_horizon_positions f ctx t0 h n = Raise (JitNotArrayLike "traj_fn")
  /\ exn_class (JitNotArrayLike "traj_fn") = TypeError
  /\ forall rows : list Vec4,
       generate_horizon_positions f ctx t0 h n <> Ok rows.
Proof.
  split; [ apply horizon_positions_refused | split; [ reflexivity | ] ].
  intros rows. rewrite horizon_positions_refused. discriminate.
Qed.

Lemma horizon_with_velocity_rejects
    (jacfwd : (R -> result Vec4) -> R -> result Vec4)
    (f : TrajectoryFunc) (ctx : TrajContext) (t0 h : R) (n : Z) :
  (n < 1)%Z ->
  generate_horizon_with_velocity jacfwd f ctx t0 h n = Raise NumStepsTooSmall.
Proof.
  intros Hn. unfold generate_horizon_with_velocity.
  destruct (Z.leb_spec n 0); [ reflexivity | lia ].
Qed.

(** C2 (the code departs from it). [generate_horizon_positions] reports no
    invalid [num_steps]. Called on [circle_horizontal], the context
    [TrajContext(sim=True)], [t_start = 0], [horizon = 1] and
    [num_steps = 0], it raises the [TypeError] of [jax.jit] for its
    position-function argument, the exception it raises with
    [num_steps = 5] as well; and its body has no test of [num_steps]: on the
    same arguments the body returns the empty batch.
    [generate_horizon_with_velocity] refuses the same arguments with its
    [ValueError]. *)
Theorem horizon_positions_zero_steps :
  generate_horizon_positions circle_horizontal
    (mkTrajContext true None None None None) 0 1 0
  = Raise (JitNotArrayLike "traj_fn") /\
  exn_class (JitNotArrayLike "traj_fn") = TypeError /\
  generate_horizon_positions circle_horizontal
    (mkTrajContext true None None None None) 0 1 5
  = Raise (JitNotArrayLike "traj_fn") /\
  generate_horizon_positions_body circle_horizontal
    (mkTrajContext true None None None None) 0 1 0 = Ok [] /\
  forall jacfwd : (R -> result Vec4) -> R -> result Vec4,
    generate_horizon_with_velocity jacfwd circle_horizontal
      (mkTrajContext true None None None None) 0 1 0
    = Raise NumStepsTooSmall
    /\ exn_class NumStepsTooSmall = ValueError.
Proof.
  repeat split.
Qed.

(** C8. For every position function, context, start time, horizon and
    [num_steps], and whatever the differentiation engine computes,
    [generate_reference_trajectory f t_start h n ctx] is
    [generate_horizon_with_velocity f ctx t_start h n]: the same pair of
    positions and velocities, or the same exception. *)
Theorem reference_trajectory_same
    (jacfwd : (R -> result Vec4) -> R -> result Vec4)
    (f : TrajectoryFunc) (ctx : TrajContext) (t_start h : R) (n : Z) :
  generate_reference_trajectory jacfwd f t_start h n ctx
  = generate_horizon_with_velocity jacfwd f ctx t_start h n.
Proof. reflexivity. Qed.

(** ** Totality of the position functions *)

Lemma fig8_vertical_short_unset (t : R) (ctx : TrajContext) :
  short ctx = None -> fig8_vertical t ctx = Raise WhereNotArrayLike.
Proof. intros Hs. unfold fig8_vertical. rewrite Hs. reflexivity. Qed.

Lemma fig8_vertical_short_set (t : R) (ctx : TrajContext) :
  short ctx <> None -> exists v, fig8_vertical t ctx = Ok v.
Proof.
  intros Hs. unfold fig8_vertical.
  destruct (short ctx) as [b | ]; [ | congruence ].
  eexists. reflexivity.
Qed.

(** Every position function other than [hover] returns a vector, for every
    [t] and every context, except [fig8_vertical] on a context that leaves
    [short] unset. *)
Lemma position_total (k : TrajectoryType) (t : R) (ctx : TrajContext) :
  k <> HOVER -> (k = FIG8_VERTICAL -> short ctx <> None) ->
  exists v, TRAJ_REGISTRY k t ctx = Ok v.
Proof.
  intros Hk Hs.
  destruct k; cbn [TRAJ_REGISTRY];
    try (eexists; reflexivity); [ congruence | ].
  apply fig8_vertical_short_set. now apply Hs.
Qed.

(** C1 (the code departs from it). The context [TrajContext(sim=True)], which
    leaves [spin], [double_speed] and [short] unset, makes [fig8_vertical]
    raise at [t = 0]: [jnp.where] refuses the [None] of [ctx.short] with a
    [TypeError]. *)
Theorem fig8_vertical_default_context_raises :
  fig8_vertical 0 (mkTrajContext true None None None None)
    = Raise WhereNotArrayLike /\
  exn_class WhereNotArrayLike = TypeError.
Proof. split; reflexivity. Qed.


(** * Further properties of the code *)

(** ** The catalogue of types.py *)

(** Looking a member up by its own value gives the member back: the nine
    values are pairwise different, so no member is an alias of another. *)
Lemma of_tag_tag (k : TrajectoryType) : of_tag (tag k) = Some k.
Proof. destruct k; reflexivity. Qed.

Lemma of_tag_some (s : string) (k : TrajectoryType) :
  of_tag s = Some k -> tag k = s.
Proof.
  unfold of_tag. intros H. apply find_some in H as [_ H].
  now apply String.eqb_eq in H.
Qed.

(** X1. A string is accepted by [TrajectoryType(s)] exactly when it is the
    value of the member returned; two members with the same value are the
    same member. *)
Theorem tag_lookup_exact (s : string) (k k' : TrajectoryType) :
  (of_tag s = Some k <-> tag k = s) /\
  (tag k = tag k' -> k = k').
Proof.
  split; [ split | ].
  - apply of_tag_some.
  - intros <-. apply of_tag_tag.
  - intros H. pose proof (of_tag_tag k) as Hk. rewrite H, of_tag_tag in Hk.
    congruence.
Qed.

(** ** The jit wrapper of jax_utils.py *)

Section JitWrapperFacts.

Variables (Fn Compiled Val : Type).
Variable jax_jit : Fn -> list (string * Val) -> Compiled.
Variable cpu : Val.

Lemma kwargs_get_app (d1 d2 : list (string * Val)) (k : string) :
  kwargs_get Val (d1 ++ d2) k =
  match kwargs_get Val d1 k with
  | Some v => Some v
  | None => kwargs_get Val d2 k
  end.
Proof.
  induction d1 as [ | [k' v] d1 IH ]; cbn [kwargs_get app]; [ reflexivity | ].
  destruct (String.eqb k k'); [ reflexivity | exact IH ].
Qed.

Lemma setdefault_get (d : list (string * Val)) (k k' : string) (v : Val) :
  kwargs_get Val (setdefault Val d k v) k' =
  match kwargs_get Val d k' with
  | Some w => Some w
  | None => if String.eqb k' k then Some v else None
  end.
Proof.
  unfold setdefault. destruct (kwargs_get Val d k) as [w | ] eqn:Ek.
  - destruct (kwargs_get Val d k') as [w' | ] eqn:Ek'; [ reflexivity | ].
    destruct (String.eqb_spec k' k) as [-> | ]; [ congruence | reflexivity ].
  - rewrite kwargs_get_app. cbn [kwargs_get].
    destruct (kwargs_get Val d k'); reflexivity.
Qed.

End JitWrapperFacts.

(** X2. Both call forms of [jit] compile with the same keywords: the decorator
    returned by [jit] called with keywords only, applied to [f], is what
    [jit] called with [f] and the same keywords returns. The keywords that reach [jax.jit] hold a backend: the caller's
    if one was given, else ["cpu"]; every other keyword is passed on
    unchanged. *)
Theorem jit_backend_default
    (Fn Compiled Val : Type) (jax_jit : Fn -> list (string * Val) -> Compiled)
    (cpu : Val) (kwargs : list (string * Val)) (f : Fn) :
  exists kwargs' : list (string * Val),
    jit Fn Compiled Val jax_jit cpu (Some f) kwargs
      = Wrapped (jax_jit f kwargs') /\
    (exists dec, jit Fn Compiled Val jax_jit cpu None kwargs = Decorator dec
                 /\ dec f = jax_jit f kwargs') /\
    kwargs_get Val kwargs' "backend" =
      Some (match kwargs_get Val kwargs "backend" with
            | Some b => b
            | None => cpu
            end) /\
    forall k : string, k <> "backend"%string ->
      kwargs_get Val kwargs' k = kwargs_get Val kwargs k.
Proof.
  exists (setdefault Val kwargs "backend" cpu).
  split; [ reflexivity | split; [ | split ] ].
  - eexists. split; reflexivity.
  - rewrite setdefault_get. cbn [String.eqb Ascii.eqb Bool.eqb].
    destruct (kwargs_get Val kwargs "backend"); reflexivity.
  - intros k Hk. rewrite setdefault_get.
    destruct (kwargs_get Val kwargs k); [ reflexivity | ].
    destruct (String.eqb_spec k "backend"); [ contradiction | reflexivity ].
Qed.

Lemma tag_lookup_exact_witness :
  of_tag "helix" = Some HELIX /\ FIG8_VERTICAL = FIG8_VERTICAL.
Proof.
  split.
  - apply (tag_lookup_exact "helix" HELIX HELIX). reflexivity.
  - apply (tag_lookup_exact "fig8_vert" FIG8_VERTICAL FIG8_VERTICAL).
    reflexivity.
Defined.

(** ** Shape of the parametric trajectories *)

Lemma sin_bound_scaled (r x : R) : 0 <= r -> - r <= r * sin x <= r.
Proof. intros Hr. pose proof (SIN_bound x). nra. Qed.

Lemma circle_norm (r x : R) : (r * cos x) ^ 2 + (r * sin x) ^ 2 = r ^ 2.
Proof.
  pose proof (sin2_cos2 x) as H. unfold Rsqr in H.
  replace ((r * cos x) ^ 2 + (r * sin x) ^ 2)
    with (r ^ 2 * (sin x * sin x + cos x * cos x)) by ring.
  rewrite H. ring.
Qed.

(** A point [(r sin 2a, r sin a)] lies on the figure-eight curve
    [r^2 x^2 = 4 y^2 (r^2 - y^2)]. *)
Lemma gerono (r a : R) :
  r ^ 2 * (r * sin (2 * a)) ^ 2
  = 4 * (r * sin a) ^ 2 * (r ^ 2 - (r * sin a) ^ 2).
Proof.
  rewrite sin_2a.
  pose proof (sin2_cos2 a) as H. unfold Rsqr in H.
  replace (r ^ 2 - (r * sin a) ^ 2) with (r ^ 2 * (cos a * cos a))
    by (replace (cos a * cos a) with (1 - sin a * sin a) by lra; ring).
  ring.
Qed.

(** X3. [yaw_only] holds the position [(0, 0, -height)] and turns the yaw by one
    full turn every spin period, 20 seconds or 10 under double speed; it
    does so whether [ctx.spin] is set or not. *)
Theorem yaw_only_full_turn (t : R) (ctx : TrajContext) :
  exists v v' : Vec4,
    yaw_only t ctx = Ok v /\
    yaw_only (t + (if truthy (double_speed ctx) then 10 else 20)) ctx = Ok v' /\
    xyz v = (0.0, 0.0, - height_of ctx) /\
    xyz v' = xyz v /\
    vyaw v' = vyaw v + 2 * PI.
Proof.
  unfold yaw_only. cbv zeta. do 2 eexists.
  split; [ reflexivity | split; [ reflexivity | ] ].
  cbn [xyz vx vy vz vyaw].
  split; [ reflexivity | split; [ reflexivity | ] ].
  pose proof PI_RGT_0.
  replace 20.0 with 20 by lra. replace 2.0 with 2 by lra.
  destruct (truthy (double_speed ctx)); field; lra.
Qed.

(** X4. [circle_horizontal] stays on the circle of radius 0.6 around the
    vertical axis, at the constant height selected by [ctx.sim]. *)
Theorem circle_horizontal_on_circle (t : R) (ctx : TrajContext) :
  exists v : Vec4,
    circle_horizontal t ctx = Ok v /\
    vx v ^ 2 + vy v ^ 2 = 0.6 ^ 2 /\
    vz v = - height_of ctx.
Proof.
  unfold circle_horizontal. cbv zeta. eexists.
  split; [ reflexivity | ]. cbn [vx vy vz].
  split; [ apply circle_norm | reflexivity ].
Qed.

(** X5. [circle_vertical] stays in the plane [y = 0], on the circle of radius
    0.35 whose centre is at the height selected by [ctx.sim]; so the
    altitude [-z] stays within 0.35 of that height. *)
Theorem circle_vertical_on_circle (t : R) (ctx : TrajContext) :
  exists v : Vec4,
    circle_vertical t ctx = Ok v /\
    vy v = 0 /\
    vx v ^ 2 + (vz v + height_of ctx) ^ 2 = 0.35 ^ 2 /\
    height_of ctx - 0.35 <= - vz v <= height_of ctx + 0.35.
Proof.
  unfold circle_vertical. cbv zeta. eexists.
  split; [ reflexivity | ]. cbn [vx vy vz].
  split; [ lra | split ].
  - rewrite <- (circle_norm 0.35
                  (2 * PI / (if truthy (double_speed ctx)
                             then 13.0 / 2.0 else 13.0) * t)).
    ring.
  - match goal with |- context [sin ?a] =>
      pose proof (sin_bound_scaled 0.35 a) end.
    lra.
Qed.

(** X6. [fig8_horizontal] runs on the figure-eight curve
    [r^2 x^2 = 4 y^2 (r^2 - y^2)] with [r = 0.35], inside the square
    [|x|, |y| <= 0.35], at the constant height selected by [ctx.sim]. *)
Theorem fig8_horizontal_curve (t : R) (ctx : TrajContext) :
  exists v : Vec4,
    fig8_horizontal t ctx = Ok v /\
    0.35 ^ 2 * vx v ^ 2 = 4 * vy v ^ 2 * (0.35 ^ 2 - vy v ^ 2) /\
    - 0.35 <= vx v <= 0.35 /\
    - 0.35 <= vy v <= 0.35 /\
    vz v = - height_of ctx.
Proof.
  unfold fig8_horizontal. cbv zeta. eexists.
  split; [ reflexivity | ]. cbn [vx vy vz].
  split; [ | split; [ | split ] ].
  - rewrite Rmult_assoc. apply gerono.
  - match goal with |- context [sin ?a] =>
      pose proof (sin_bound_scaled 0.35 a) end.
    lra.
  - match goal with |- context [sin ?a] =>
      pose proof (sin_bound_scaled 0.35 a) end.
    lra.
  - reflexivity.
Qed.

(** X7. With [short] set, [fig8_vertical] returns a position in the plane
    [x = 0]. The two variants are mirror images of each other: the lateral
    offset [y] of one is the height offset [-(z + height)] of the other, at
    every time; both stay within 0.35 of the centre on each axis. *)
Theorem fig8_vertical_variants
    (t : R) (s : bool) (hm : option Z) (sp ds : option bool) :
  exists vs vl : Vec4,
    fig8_vertical t (mkTrajContext s hm sp ds (Some true)) = Ok vs /\
    fig8_vertical t (mkTrajContext s hm sp ds (Some false)) = Ok vl /\
    vx vs = 0 /\ vx vl = 0 /\
    vy vs = - (vz vl + (if s then 3.0 else 0.85)) /\
    vy vl = - (vz vs + (if s then 3.0 else 0.85)) /\
    - 0.35 <= vy vs <= 0.35 /\
    - 0.35 <= vy vl <= 0.35.
Proof.
  unfold fig8_vertical, height_of, SIM_HEIGHT, HARDWARE_HEIGHT.
  cbv zeta. cbn [short sim double_speed jnp_where_opt bind].
  do 2 eexists. split; [ reflexivity | split; [ reflexivity | ] ].
  cbn [vx vy vz].
  set (w := 2 * PI / (if truthy ds then 13.0 / 2.0 else 13.0)).
  pose proof (sin_bound_scaled 0.35 (w * t) ltac:(lra)) as H1.
  pose proof (sin_bound_scaled 0.35 (2 * w * t) ltac:(lra)) as H2.
  destruct s; cbn [negb]; repeat split; lra.
Qed.

(** ** More on the remainder *)

Lemma jnp_mod_period (x m : R) : 0 < m -> jnp_mod (x + m) m = jnp_mod x m.
Proof.
  intros Hm. unfold jnp_mod.
  destruct (jnp_floor_bounds (x / m)) as [Hlo Hhi].
  rewrite (jnp_floor_spec ((x + m) / m) (jnp_floor (x / m) + 1)).
  - rewrite plus_IZR. ring.
  - rewrite plus_IZR.
    replace ((x + m) / m) with (x / m + 1) by (field; lra). lra.
Qed.

Lemma jnp_mod_scale (s x m : R) :
  0 < s -> 0 < m -> jnp_mod (s * x) (s * m) = s * jnp_mod x m.
Proof.
  intros Hs Hm. unfold jnp_mod.
  replace (s * x / (s * m)) with (x / m) by (field; lra). ring.
Qed.

(** ** The waypoint interpolation *)

Lemma sawtooth_xy (t : R) (ctx : TrajContext) :
  sawtooth t ctx =
  Ok (mkVec4 (fst (waypoint_xy sawtooth_points 11 (sawtooth_T_seg ctx) t))
             (snd (waypoint_xy sawtooth_points 11 (sawtooth_T_seg ctx) t))
             (- height_of ctx) (omega_spin_of 30.0 ctx * t)).
Proof. reflexivity. Qed.

Lemma triangle_xy (t : R) (ctx : TrajContext) :
  triangle t ctx =
  Ok (mkVec4 (fst (waypoint_xy triangle_points 3 (triangle_T_seg ctx) t))
             (snd (waypoint_xy triangle_points 3 (triangle_T_seg ctx) t))
             (- height_of ctx) (omega_spin_of 20.0 ctx * t)).
Proof. reflexivity. Qed.

Section Waypoints.

Variables (points : list (R * R)) (n : Z) (T : R).
Hypothesis T_pos : 0 < T.
Hypothesis n_pos : (0 < n)%Z.

Lemma cycle_pos : 0 < IZR n * T.
Proof. assert (0 < IZR n) by (apply IZR_lt; lia). nra. Qed.

(** Inside segment [k], a fraction [a] of the segment duration after its
    start, in the cycle that starts [j] cycles after time 0. *)
Lemma waypoint_xy_in_segment (k j : Z) (a : R) :
  (0 <= k < n)%Z -> 0 <= a < 1 ->
  waypoint_xy points n T ((IZR k + a) * T + IZR j * (IZR n * T))
  = lerp (row points k)
         (row points ((k + 1) mod Z.of_nat (length points))%Z) a.
Proof.
  intros Hk Ha. unfold waypoint_xy. cbv zeta.
  assert (0 <= IZR k) by (apply IZR_le; lia).
  assert (IZR k + 1 <= IZR n)
    by (rewrite <- plus_IZR; apply IZR_le; lia).
  rewrite jnp_mod_shift; [ | exact cycle_pos | split; nra ].
  replace ((IZR k + a) * T / T) with (IZR k + a) by (field; lra).
  rewrite (jnp_floor_spec (IZR k + a) k) by lra.
  replace (jnp_clip k 0 (n - 1)) with k by (unfold jnp_clip; lia).
  replace (((IZR k + a) * T - IZR k * T) / T) with a by (field; lra).
  reflexivity.
Qed.

(** Every time lies in some segment. *)
Lemma waypoint_xy_segment (t : R) :
  exists (k : Z) (a : R),
    (0 <= k < n)%Z /\ 0 <= a < 1 /\
    waypoint_xy points n T t
    = lerp (row points k)
           (row points ((k + 1) mod Z.of_nat (length points))%Z) a.
Proof.
  destruct (jnp_mod_bounds t (IZR n * T) cycle_pos) as [Hlo Hhi].
  unfold waypoint_xy. cbv zeta.
  set (ct := jnp_mod t (IZR n * T)) in *.
  destruct (jnp_floor_bounds (ct / T)) as [Flo Fhi].
  set (k := jnp_floor (ct / T)) in *.
  assert (Hq : 0 <= ct / T < IZR n).
  { split.
    - unfold Rdiv. apply Rmult_le_pos; [ lra | ].
      apply Rlt_le, Rinv_0_lt_compat, T_pos.
    - apply (Rmult_lt_reg_r T); [ exact T_pos | ].
      replace (ct / T * T) with ct by (field; lra). lra. }
  assert (Hk : (0 <= k < n)%Z).
  { split.
    - apply Z.lt_succ_r, lt_IZR. rewrite succ_IZR. lra.
    - apply lt_IZR. lra. }
  exists k, (ct / T - IZR k).
  split; [ exact Hk | split; [ lra | ] ].
  replace (jnp_clip k 0 (n - 1)) with k by (unfold jnp_clip; lia).
  replace ((ct - IZR k * T) / T) with (ct / T - IZR k) by (field; lra).
  reflexivity.
Qed.

Lemma waypoint_xy_period (t : R) :
  waypoint_xy points n T (t + IZR n * T) = waypoint_xy points n T t.
Proof.
  unfold waypoint_xy. now rewrite jnp_mod_period by exact cycle_pos.
Qed.

Lemma waypoint_xy_scale (s t : R) :
  0 < s -> waypoint_xy points n (s * T) (s * t) = waypoint_xy points n T t.
Proof.
  intros Hs. unfold waypoint_xy. cbv zeta.
  replace (IZR n * (s * T)) with (s * (IZR n * T)) by ring.
  rewrite jnp_mod_scale by (exact Hs || exact cycle_pos).
  set (ct := jnp_mod t (IZR n * T)).
  replace (s * ct / (s * T)) with (ct / T) by (field; lra).
  set (k := jnp_clip (jnp_floor (ct / T)) 0 (n - 1)).
  replace ((s * ct - IZR k * (s * T)) / (s * T)) with ((ct - IZR k * T) / T)
    by (field; lra).
  reflexivity.
Qed.

End Waypoints.

(** X8. Between two segment boundaries [sawtooth] and [triangle] move on the
    straight line between consecutive waypoints: a fraction [a] of a segment
    duration after boundary [k] (in any cycle [j]) the x and y components are
    [p + a * (q - p)], with [p] waypoint [k] and [q] the next waypoint, the
    one after the last vertex of the triangle being its first. *)
Theorem waypoint_interpolation (ctx : TrajContext) (k j : Z) (a : R) :
  0 <= a < 1 ->
  ((0 <= k < 11)%Z ->
     result_map xy
       (sawtooth ((IZR k + a) * sawtooth_T_seg ctx
                  + IZR j * (11 * sawtooth_T_seg ctx)) ctx)
     = Ok (lerp (row sawtooth_points k) (row sawtooth_points (k + 1)) a)) /\
  ((0 <= k < 3)%Z ->
     result_map xy
       (triangle ((IZR k + a) * triangle_T_seg ctx
                  + IZR j * (3 * triangle_T_seg ctx)) ctx)
     = Ok (lerp (row triangle_points k)
                (row triangle_points ((k + 1) mod 3)) a)).
Proof.
  intros Ha. split; intros Hk.
  - rewrite sawtooth_xy. cbn [result_map bind xy vx vy].
    rewrite (waypoint_xy_in_segment sawtooth_points 11 _
               (sawtooth_T_seg_pos ctx) ltac:(lia) k j a Hk Ha).
    change (Z.of_nat (length sawtooth_points)) with 12%Z.
    rewrite Z.mod_small by lia.
    now destruct (lerp _ _ _).
  - rewrite triangle_xy. cbn [result_map bind xy vx vy].
    rewrite (waypoint_xy_in_segment triangle_points 3 _
               (triangle_T_seg_pos ctx) ltac:(lia) k j a Hk Ha).
    change (Z.of_nat (length triangle_points)) with 3%Z.
    now destruct (lerp _ _ _).
Qed.

Lemma waypoint_interpolation_witness :
  result_map xy
    (sawtooth ((IZR 1 + 1 / 2)
               * sawtooth_T_seg (mkTrajContext true None None None None)
               + IZR 0 * (11 * sawtooth_T_seg
                                 (mkTrajContext true None None None None)))
              (mkTrajContext true None None None None))
  = Ok (lerp (0.0, 0.4) (0.4, -0.4) (1 / 2)).
Proof.
  apply (waypoint_interpolation
           (mkTrajContext true None None None None) 1 0 (1 / 2));
    [ lra | lia ].
Defined.

(** Evaluation of a waypoint lookup at a literal index. *)
Ltac eval_rows :=
  repeat match goal with
  | |- context [Z.modulo ?a ?b] =>
      let r := eval vm_compute in (Z.modulo a b) in
      change (Z.modulo a b) with r
  end;
  unfold row;
  repeat match goal with
  | |- context [Z.to_nat ?z] =>
      let r := eval vm_compute in (Z.to_nat z) in
      change (Z.to_nat z) with r
  end;
  unfold sawtooth_points, triangle_points; cbn [nth lerp fst snd].

Lemma triangle_h_pos : 0 <= triangle_h.
Proof. unfold triangle_h. apply sqrt_pos. Qed.

(** X9. [sawtooth] never leaves the square [|x|, |y| <= 0.4] and [triangle]
    never leaves the rectangle [|x| <= 0.4], [|y| <= h/2] that holds its
    vertices; both fly at the constant height selected by [ctx.sim]. *)
Theorem waypoint_bounding_box (t : R) (ctx : TrajContext) :
  (exists v : Vec4,
     sawtooth t ctx = Ok v /\
     - 0.4 <= vx v <= 0.4 /\ - 0.4 <= vy v <= 0.4 /\
     vz v = - height_of ctx) /\
  (exists v : Vec4,
     triangle t ctx = Ok v /\
     - 0.4 <= vx v <= 0.4 /\
     - (triangle_h / 2) <= vy v <= triangle_h / 2 /\
     vz v = - height_of ctx).
Proof.
  split.
  - rewrite sawtooth_xy. eexists. split; [ reflexivity | ].
    cbn [vx vy vz].
    destruct (waypoint_xy_segment sawtooth_points 11 _
                (sawtooth_T_seg_pos ctx) ltac:(lia) t)
      as (k & a & Hk & Ha & ->).
    change (Z.of_nat (length sawtooth_points)) with 12%Z.
    assert (Hcases : (k = 0 \/ k = 1 \/ k = 2 \/ k = 3 \/ k = 4 \/ k = 5 \/
                      k = 6 \/ k = 7 \/ k = 8 \/ k = 9 \/ k = 10)%Z) by lia.
    repeat (destruct Hcases as [-> | Hcases]); [ .. | subst k ];
      eval_rows; (split; [ lra | split; [ lra | reflexivity ] ]).
  - rewrite triangle_xy. eexists. split; [ reflexivity | ].
    cbn [vx vy vz].
    destruct (waypoint_xy_segment triangle_points 3 _
                (triangle_T_seg_pos ctx) ltac:(lia) t)
      as (k & a & Hk & Ha & ->).
    change (Z.of_nat (length triangle_points)) with 3%Z.
    pose proof triangle_h_pos as Hh.
    assert (Hcases : (k = 0 \/ k = 1 \/ k = 2)%Z) by lia.
    repeat (destruct Hcases as [-> | Hcases]); [ .. | subst k ];
      eval_rows; unfold triangle_side_length;
      (split; [ lra | split; [ nra | reflexivity ] ]).
Qed.

(** X10. [sawtooth] and [triangle] repeat: one cycle later (120 and 60 seconds,
    halved under double speed) the x, y, z components are the same. *)
Theorem waypoint_cycle_period (t : R) (ctx : TrajContext) :
  result_map xyz
    (sawtooth (t + (if truthy (double_speed ctx) then 60 else 120)) ctx)
  = result_map xyz (sawtooth t ctx) /\
  result_map xyz
    (triangle (t + (if truthy (double_speed ctx) then 30 else 60)) ctx)
  = result_map xyz (triangle t ctx).
Proof.
  split.
  - rewrite !sawtooth_xy. cbn [result_map bind xyz vx vy vz].
    replace (if truthy (double_speed ctx) then 60 else 120)
      with (IZR 11 * sawtooth_T_seg ctx).
    + now rewrite waypoint_xy_period
        by (apply sawtooth_T_seg_pos || lia).
    + unfold sawtooth_T_seg, num_repeats_of. cbv zeta.
      change (Z.of_nat (length sawtooth_points) - 1)%Z with 11%Z.
      destruct (truthy (double_speed ctx)); lra.
  - rewrite !triangle_xy. cbn [result_map bind xyz vx vy vz].
    replace (if truthy (double_speed ctx) then 30 else 60)
      with (IZR 3 * triangle_T_seg ctx).
    + now rewrite waypoint_xy_period
        by (apply triangle_T_seg_pos || lia).
    + unfold triangle_T_seg, num_repeats_of. cbv zeta.
      destruct (truthy (double_speed ctx));
        [ change (3 * 2)%Z with 6%Z | change (3 * 1)%Z with 3%Z ]; lra.
Qed.

(** ** helix *)

Lemma helix_form (t : R) (ctx : TrajContext) :
  helix t ctx =
  Ok (mkVec4
        (0.6 * cos (2 * PI * 3 *
           snd (helix_zp (helix_z0 ctx) (helix_z_max ctx) (helix_cycle ctx) t)))
        (0.6 * sin (2 * PI * 3 *
           snd (helix_zp (helix_z0 ctx) (helix_z_max ctx) (helix_cycle ctx) t)))
        (- fst (helix_zp (helix_z0 ctx) (helix_z_max ctx) (helix_cycle ctx) t))
        (omega_spin_of 30.0 ctx * t)).
Proof. reflexivity. Qed.

Lemma helix_cycle_pos (ctx : TrajContext) : 0 < helix_cycle ctx.
Proof. unfold helix_cycle. destruct (truthy _); lra. Qed.

Lemma helix_heights (ctx : TrajContext) : helix_z0 ctx < helix_z_max ctx.
Proof.
  unfold helix_z0, helix_z_max, HARDWARE_HEIGHT, SIM_HEIGHT.
  destruct (sim ctx); cbn [negb]; lra.
Qed.

Lemma jnp_mod_small (r m : R) : 0 <= r < m -> jnp_mod r m = r.
Proof.
  intros Hr. assert (Hm : 0 < m) by lra.
  replace r with (r + IZR 0 * m) at 1 by ring.
  now apply jnp_mod_shift.
Qed.

Section HelixProfile.

Variables (z0 z_max c : R).
Hypothesis heights : z0 < z_max.
Hypothesis c_pos : 0 < c.

Lemma helix_zp_period (t : R) :
  helix_zp z0 z_max c (t + c) = helix_zp z0 z_max c t.
Proof. unfold helix_zp. now rewrite jnp_mod_period by exact c_pos. Qed.

(** On the way up: [u] of the half cycle done, [0 <= u <= 1]. *)
Lemma helix_zp_up (u : R) :
  0 <= u <= 1 ->
  helix_zp z0 z_max c (u * (c / 2)) = (z0 + (z_max - z0) * u, u).
Proof.
  intros Hu. unfold helix_zp, jnp_where_le. cbv zeta.
  replace (c / 2.0) with (c / 2) by lra.
  rewrite jnp_mod_small by nra.
  destruct (Rle_dec (u * (c / 2)) (c / 2)) as [ _ | Hn ]; [ | nra ].
  replace (u * (c / 2) / (c / 2)) with u by (field; lra).
  f_equal. field. lra.
Qed.

(** On the way down: [u] of the half cycle done, [0 < u < 1]. *)
Lemma helix_zp_down (u : R) :
  0 < u < 1 ->
  helix_zp z0 z_max c (c / 2 + u * (c / 2))
  = (z_max - (z_max - z0) * u, 1 - u).
Proof.
  intros Hu. unfold helix_zp, jnp_where_le. cbv zeta.
  replace (c / 2.0) with (c / 2) by lra.
  rewrite jnp_mod_small by nra.
  destruct (Rle_dec (c / 2 + u * (c / 2)) (c / 2)) as [ Hle | _ ]; [ nra | ].
  replace ((c / 2 + u * (c / 2) - c / 2) / (c / 2)) with u by (field; lra).
  f_equal. field. lra.
Qed.

(** The way down retraces the way up. *)
Lemma helix_zp_mirror (u : R) :
  0 <= u <= 1 ->
  helix_zp z0 z_max c (c / 2 + u * (c / 2))
  = helix_zp z0 z_max c ((1 - u) * (c / 2)).
Proof.
  intros Hu. rewrite (helix_zp_up (1 - u)) by lra.
  destruct (Req_dec u 0) as [-> | Hu0];
    [ | destruct (Req_dec u 1) as [-> | Hu1] ].
  - replace (c / 2 + 0 * (c / 2)) with (1 * (c / 2)) by lra.
    rewrite helix_zp_up by lra. f_equal; lra.
  - replace (c / 2 + 1 * (c / 2)) with (0 * (c / 2) + c) by lra.
    rewrite helix_zp_period, helix_zp_up by lra. f_equal; lra.
  - rewrite helix_zp_down by lra. f_equal; lra.
Qed.

Lemma helix_zp_scale (s t : R) :
  0 < s -> helix_zp z0 z_max (s * c) (s * t) = helix_zp z0 z_max c t.
Proof.
  intros Hs. unfold helix_zp, jnp_where_le. cbv zeta.
  rewrite jnp_mod_scale by assumption.
  replace (2.0) with 2 by lra.
  set (tc := jnp_mod t c).
  replace (s * tc / (s * c / 2)) with (tc / (c / 2)) by (field; lra).
  replace ((s * tc - s * c / 2) / (s * c / 2)) with ((tc - c / 2) / (c / 2))
    by (field; lra).
  destruct (Rle_dec (s * tc) (s * c / 2)) as [H1 | H1];
    destruct (Rle_dec tc (c / 2)) as [H2 | H2];
    try reflexivity; exfalso; nra.
Qed.

End HelixProfile.

(** X11. [helix] stays on the cylinder of radius 0.6 around the vertical axis. *)
Theorem helix_on_cylinder (t : R) (ctx : TrajContext) :
  exists v : Vec4, helix t ctx = Ok v /\ vx v ^ 2 + vy v ^ 2 = 0.6 ^ 2.
Proof.
  rewrite helix_form. eexists. split; [ reflexivity | ].
  cbn [vx vy]. apply circle_norm.
Qed.

(** X12. [helix] repeats: one cycle later (45 seconds, 22.5 under double speed)
    the x, y, z components are the same. *)
Theorem helix_cycle_period (t : R) (ctx : TrajContext) :
  result_map xyz
    (helix (t + (if truthy (double_speed ctx) then 22.5 else 45)) ctx)
  = result_map xyz (helix t ctx).
Proof.
  rewrite !helix_form. cbn [result_map bind xyz vx vy vz].
  replace (if truthy (double_speed ctx) then 22.5 else 45)
    with (helix_cycle ctx)
    by (unfold helix_cycle; destruct (truthy _); lra).
  now rewrite helix_zp_period by apply helix_cycle_pos.
Qed.

Lemma cos_three_turns : cos (2 * PI * 3 * 1) = 1.
Proof.
  replace (2 * PI * 3 * 1) with (0 + 2 * INR 3 * PI) by (simpl; ring).
  rewrite cos_period. apply cos_0.
Qed.

Lemma sin_three_turns : sin (2 * PI * 3 * 1) = 0.
Proof.
  replace (2 * PI * 3 * 1) with (0 + 2 * INR 3 * PI) by (simpl; ring).
  rewrite sin_period. apply sin_0.
Qed.

(** X13. During the first half of a cycle [helix] climbs at a constant rate while
    it makes three full turns: a fraction [u] of the half cycle after the
    start the altitude is [z0 + u * (z_max - z0)] and the angle is
    [3 * 2 pi * u]. It starts at the bottom and reaches the top half a cycle
    later, both times at [x = 0.6], [y = 0]. *)
Theorem helix_ascent (ctx : TrajContext) :
  (forall u : R, 0 <= u <= 1 ->
     result_map xyz (helix (u * (helix_cycle ctx / 2)) ctx)
     = Ok (0.6 * cos (2 * PI * 3 * u), 0.6 * sin (2 * PI * 3 * u),
           - (helix_z0 ctx + (helix_z_max ctx - helix_z0 ctx) * u))) /\
  result_map xyz (helix 0 ctx) = Ok (0.6, 0, - helix_z0 ctx) /\
  result_map xyz (helix (helix_cycle ctx / 2) ctx)
    = Ok (0.6, 0, - helix_z_max ctx).
Proof.
  pose proof (helix_heights ctx) as Hz.
  pose proof (helix_cycle_pos ctx) as Hc.
  assert (Hu : forall u : R, 0 <= u <= 1 ->
     result_map xyz (helix (u * (helix_cycle ctx / 2)) ctx)
     = Ok (0.6 * cos (2 * PI * 3 * u), 0.6 * sin (2 * PI * 3 * u),
           - (helix_z0 ctx + (helix_z_max ctx - helix_z0 ctx) * u))).
  { intros u Hu. rewrite helix_form. cbn [result_map bind xyz vx vy vz].
    rewrite helix_zp_up by assumption. reflexivity. }
  split; [ exact Hu | split ].
  - replace 0 with (0 * (helix_cycle ctx / 2)) at 1 by ring.
    rewrite Hu by lra. rewrite !Rmult_0_r, cos_0, sin_0.
    do 2 f_equal; [ f_equal | ]; lra.
  - replace (helix_cycle ctx / 2) with (1 * (helix_cycle ctx / 2)) at 1
      by ring.
    rewrite Hu by lra. rewrite cos_three_turns, sin_three_turns.
    do 2 f_equal; [ f_equal | ]; lra.
Qed.

Lemma helix_ascent_witness :
  result_map xyz
    (helix (1 / 2 * (helix_cycle (mkTrajContext true None None None None) / 2))
           (mkTrajContext true None None None None))
  = Ok (0.6 * cos (2 * PI * 3 * (1 / 2)), 0.6 * sin (2 * PI * 3 * (1 / 2)),
        - (helix_z0 (mkTrajContext true None None None None)
           + (helix_z_max (mkTrajContext true None None None None)
              - helix_z0 (mkTrajContext true None None None None)) * (1 / 2))).
Proof.
  apply (helix_ascent (mkTrajContext true None None None None)). lra.
Defined.

(** X14. The descent of [helix] retraces its ascent: a fraction [u] of the half
    cycle after the top, the x, y, z components are those at the same
    fraction before the top. *)
Theorem helix_retrace (u : R) (ctx : TrajContext) :
  0 <= u <= 1 ->
  result_map xyz
    (helix (helix_cycle ctx / 2 + u * (helix_cycle ctx / 2)) ctx)
  = result_map xyz (helix ((1 - u) * (helix_cycle ctx / 2)) ctx).
Proof.
  intros Hu. rewrite !helix_form. cbn [result_map bind xyz vx vy vz].
  now rewrite helix_zp_mirror
    by (apply helix_heights || apply helix_cycle_pos || exact Hu).
Qed.

Lemma helix_retrace_witness :
  result_map xyz
    (helix (helix_cycle (mkTrajContext false None None None None) / 2
            + 1 / 4 * (helix_cycle (mkTrajContext false None None None None) / 2))
           (mkTrajContext false None None None None))
  = result_map xyz
      (helix ((1 - 1 / 4)
              * (helix_cycle (mkTrajContext false None None None None) / 2))
             (mkTrajContext false None None None None)).
Proof.
  apply (helix_retrace (1 / 4) (mkTrajContext false None None None None)).
  lra.
Defined.

(** ** Double speed *)

Lemma half_period_rate (P t : R) :
  P <> 0 -> 2 * PI / (P / 2) * t = 2 * PI / P * (2 * t).
Proof. intros HP. field. exact HP. Qed.

Lemma half_period_double_rate (P t : R) :
  P <> 0 -> 2 * (2 * PI / (P / 2)) * t = 2 * (2 * PI / P) * (2 * t).
Proof. intros HP. field. exact HP. Qed.

Lemma sawtooth_T_seg_double (s : bool) (hm : option Z) (sp ds sh : option bool) :
  truthy ds = false ->
  sawtooth_T_seg (mkTrajContext s hm sp ds sh)
  = 2 * sawtooth_T_seg (mkTrajContext s hm sp (Some true) sh).
Proof.
  intros Hds. unfold sawtooth_T_seg, num_repeats_of. cbv zeta.
  cbn [double_speed]. rewrite Hds. cbn [truthy].
  change (Z.of_nat (length sawtooth_points) - 1)%Z with 11%Z. lra.
Qed.

Lemma triangle_T_seg_double (s : bool) (hm : option Z) (sp ds sh : option bool) :
  truthy ds = false ->
  triangle_T_seg (mkTrajContext s hm sp ds sh)
  = 2 * triangle_T_seg (mkTrajContext s hm sp (Some true) sh).
Proof.
  intros Hds. unfold triangle_T_seg, num_repeats_of. cbv zeta.
  cbn [double_speed]. rewrite Hds. cbn [truthy].
  change (3 * 1)%Z with 3%Z. change (3 * 2)%Z with 6%Z. lra.
Qed.

(** X15. Setting [double_speed] is a change of time scale for the path: for
    every entry of the registry, the x, y, z components at time [t] with
    [double_speed] set are those at time [2 t] without it (and the call
    raises with it exactly when it raises without it). *)
Theorem double_speed_is_time_scaling
    (k : TrajectoryType) (t : R)
    (s : bool) (hm : option Z) (sp ds sh : option bool) :
  truthy ds = false ->
  result_map xyz (TRAJ_REGISTRY k t (mkTrajContext s hm sp (Some true) sh))
  = result_map xyz (TRAJ_REGISTRY k (2 * t) (mkTrajContext s hm sp ds sh)).
Proof.
  intros Hds.
  assert (H13 : 13.0 <> 0) by lra.
  destruct k; cbn [TRAJ_REGISTRY].
  - reflexivity.
  - reflexivity.
  - unfold circle_horizontal. cbv zeta. cbn [double_speed truthy].
    rewrite Hds. replace 2.0 with 2 by lra.
    now rewrite half_period_rate by exact H13.
  - unfold circle_vertical. cbv zeta. cbn [double_speed truthy].
    rewrite Hds. replace 2.0 with 2 by lra.
    now rewrite half_period_rate by exact H13.
  - unfold fig8_horizontal. cbv zeta. cbn [double_speed truthy].
    rewrite Hds. replace 2.0 with 2 by lra.
    now rewrite half_period_rate, half_period_double_rate by exact H13.
  - unfold fig8_vertical. cbv zeta. cbn [double_speed truthy short].
    rewrite Hds. replace 2.0 with 2 by lra.
    rewrite half_period_rate, half_period_double_rate by exact H13.
    destruct sh as [ b | ]; reflexivity.
  - rewrite !helix_form. cbn [result_map bind xyz vx vy vz].
    unfold helix_cycle, helix_z0, helix_z_max.
    cbn [double_speed truthy sim]. rewrite Hds.
    rewrite <- (helix_zp_scale _ _ (45.0 / 2.0) ltac:(lra) 2 t) by lra.
    replace (2 * (45.0 / 2.0)) with 45.0 by lra. reflexivity.
  - rewrite !sawtooth_xy. cbn [result_map bind xyz vx vy vz].
    rewrite (sawtooth_T_seg_double s hm sp ds sh Hds).
    rewrite waypoint_xy_scale;
      [ reflexivity | apply sawtooth_T_seg_pos | lia | lra ].
  - rewrite !triangle_xy. cbn [result_map bind xyz vx vy vz].
    rewrite (triangle_T_seg_double s hm sp ds sh Hds).
    rewrite waypoint_xy_scale;
      [ reflexivity | apply triangle_T_seg_pos | lia | lra ].
Qed.

Lemma double_speed_is_time_scaling_witness :
  result_map xyz
    (TRAJ_REGISTRY HELIX 7 (mkTrajContext true None None (Some true) None))
  = result_map xyz
      (TRAJ_REGISTRY HELIX (2 * 7) (mkTrajContext true None None None None)).
Proof.
  apply (double_speed_is_time_scaling HELIX 7 true None None None None).
  reflexivity.
Defined.

(** ** Invariants of the whole registry *)

(** Opening of a successful call [H : f t ctx = Ok v] of a position function
    other than [hover]. *)
Ltac open_position H :=
  first
    [ rewrite helix_form in H
    | rewrite sawtooth_xy in H
    | rewrite triangle_xy in H
    | progress unfold yaw_only, circle_horizontal, circle_vertical,
        fig8_horizontal in H; cbv zeta in H
    | progress unfold fig8_vertical in H; cbv zeta in H;
      destruct (short _) as [ [ | ] | ];
      cbn [jnp_where_opt bind] in H; [ | | discriminate H ] ];
  injection H as <-.

Lemma hover_dict_envelope (m : Z) (v : Vec4) :
  dict_get hover_dict m = Some v ->
  0.8 <= - vz v <= 10 /\
  ((m <= 4)%Z ->
     0 <= vx v <= 0.8 /\ 0 <= vy v <= 0.8 /\ 0.8 <= - vz v <= 0.9).
Proof.
  unfold hover_dict; cbn [dict_get].
  repeat (case_key;
          [ intros [= <-]; cbn [vx vy vz];
            split; [ lra | intros Hm; try lia; repeat split; lra ] | ]).
  discriminate.
Qed.

Lemma hover_ok (t : R) (ctx : TrajContext) (v : Vec4) :
  hover t ctx = Ok v ->
  dict_get hover_dict (spec_hover_slot ctx) = Some v /\
  (sim ctx = false -> (spec_hover_slot ctx <= 4)%Z).
Proof.
  unfold hover. fold (spec_hover_slot ctx).
  destruct (dict_get hover_dict (spec_hover_slot ctx)) as [w | ];
    [ | discriminate ].
  destruct (sim ctx); cbn [negb andb].
  - intros [= ->]. split; [ reflexivity | discriminate ].
  - destruct (Z.ltb_spec 4 (spec_hover_slot ctx)); [ discriminate | ].
    intros [= ->]. split; [ reflexivity | intros _; assumption ].
Qed.

Lemma helix_zp_band (z0 z_max c t : R) :
  z0 <= z_max -> 0 < c ->
  z0 <= fst (helix_zp z0 z_max c t) <= z_max.
Proof.
  intros Hz Hc. unfold helix_zp, jnp_where_le. cbv zeta. cbn [fst].
  destruct (jnp_mod_bounds t c Hc) as [Hlo Hhi].
  replace (c / 2.0) with (c / 2) by lra.
  destruct (Rle_dec (jnp_mod t c) (c / 2)) as [Hle | Hgt].
  - apply helix_up_band; assumption.
  - apply helix_down_band; lra.
Qed.

(** X16. On hardware ([ctx.sim] false) a successful [hover] is one of the four
    low presets: inside the square [0 <= x, y <= 0.8] and between 0.8 and
    0.9 above ground. *)
Theorem hover_hardware_envelope (t : R) (ctx : TrajContext) (v : Vec4) :
  sim ctx = false -> hover t ctx = Ok v ->
  0 <= vx v <= 0.8 /\ 0 <= vy v <= 0.8 /\ 0.8 <= - vz v <= 0.9.
Proof.
  intros Hsim Hok. apply hover_ok in Hok as [Hget Hslot].
  apply hover_dict_envelope in Hget as [_ Hlow].
  apply Hlow, Hslot, Hsim.
Qed.

Lemma hover_hardware_envelope_witness :
  0 <= vx (mkVec4 0.8 0.8 (-0.8) 0.0) <= 0.8 /\
  0 <= vy (mkVec4 0.8 0.8 (-0.8) 0.0) <= 0.8 /\
  0.8 <= - vz (mkVec4 0.8 0.8 (-0.8) 0.0) <= 0.9.
Proof.
  apply (hover_hardware_envelope 0
           (mkTrajContext false (Some 4%Z) None None None));
    reflexivity.
Defined.

(** X17. Whatever the registry entry, the time and the context, a position that
    is returned has an altitude [-z] between 0.5 and 10; on hardware
    ([ctx.sim] false) it is at most 2.6. *)
Theorem registry_altitude
    (k : TrajectoryType) (t : R) (ctx : TrajContext) (v : Vec4) :
  TRAJ_REGISTRY k t ctx = Ok v ->
  0.5 <= - vz v <= 10 /\ (sim ctx = false -> - vz v <= 2.6).
Proof.
  intros H. destruct k; cbn [TRAJ_REGISTRY] in H.
  - pose proof (hover_ok t ctx v H) as [Hget Hslot].
    apply hover_dict_envelope in Hget as [Hall Hlow].
    split; [ lra | intros Hsim ].
    destruct (Hlow (Hslot Hsim)) as (_ & _ & Hz). lra.
  - open_position H. cbn [vz]. unfold height_of, HARDWARE_HEIGHT, SIM_HEIGHT.
    destruct (sim ctx); cbn [negb]; split; try lra; intros Hs; try discriminate Hs; lra.
  - open_position H. cbn [vz]. unfold height_of, HARDWARE_HEIGHT, SIM_HEIGHT.
    destruct (sim ctx); cbn [negb]; split; try lra; intros Hs; try discriminate Hs; lra.
  - open_position H. cbn [vz].
    match goal with |- context [sin ?a] =>
      pose proof (sin_bound_scaled 0.35 a ltac:(lra)) end.
    unfold height_of, HARDWARE_HEIGHT, SIM_HEIGHT.
    destruct (sim ctx); cbn [negb]; split; try lra; intros Hs; try discriminate Hs; lra.
  - open_position H. cbn [vz]. unfold height_of, HARDWARE_HEIGHT, SIM_HEIGHT.
    destruct (sim ctx); cbn [negb]; split; try lra; intros Hs; try discriminate Hs; lra.
  - open_position H; cbn [vz];
      match goal with |- context [sin ?a] =>
        pose proof (sin_bound_scaled 0.35 a ltac:(lra)) end;
      unfold height_of, HARDWARE_HEIGHT, SIM_HEIGHT;
      destruct (sim ctx); cbn [negb]; split; try lra; intros Hs; try discriminate Hs; lra.
  - assert (Hv : vz v = - fst (helix_zp (helix_z0 ctx) (helix_z_max ctx)
                                  (helix_cycle ctx) t))
      by (rewrite helix_form in H; injection H as <-; reflexivity).
    rewrite Hv.
    pose proof (helix_zp_band (helix_z0 ctx) (helix_z_max ctx)
                  (helix_cycle ctx) t
                  (Rlt_le _ _ (helix_heights ctx)) (helix_cycle_pos ctx)) as Hb.
    set (zp := helix_zp (helix_z0 ctx) (helix_z_max ctx) (helix_cycle ctx) t)
      in *.
    clearbody zp. revert Hb.
    unfold helix_z0, helix_z_max, HARDWARE_HEIGHT, SIM_HEIGHT.
    destruct (sim ctx); cbn [negb]; intros Hb; split; try lra; intros Hs; try discriminate Hs; lra.
  - open_position H. cbn [vz]. unfold height_of, HARDWARE_HEIGHT, SIM_HEIGHT.
    destruct (sim ctx); cbn [negb]; split; try lra; intros Hs; try discriminate Hs; lra.
  - open_position H. cbn [vz]. unfold height_of, HARDWARE_HEIGHT, SIM_HEIGHT.
    destruct (sim ctx); cbn [negb]; split; try lra; intros Hs; try discriminate Hs; lra.
Qed.

Lemma registry_altitude_witness :
  0.5 <= - vz (mkVec4 0.0 0.0 (-10.0) 0.0) <= 10 /\
  (sim (mkTrajContext true (Some 5%Z) None None None) = false ->
   - vz (mkVec4 0.0 0.0 (-10.0) 0.0) <= 2.6).
Proof.
  apply (registry_altitude HOVER 0
           (mkTrajContext true (Some 5%Z) None None None)).
  reflexivity.
Defined.

(** ** Yaw *)

Lemma position_yaw
    (k : TrajectoryType) (t : R) (ctx : TrajContext) (v : Vec4) :
  k <> HOVER -> k <> YAW_ONLY ->
  TRAJ_REGISTRY k t ctx = Ok v ->
  vyaw v = omega_spin_of (period_spin_of k) ctx * t.
Proof.
  intros Hh Hy H.
  destruct k; cbn [TRAJ_REGISTRY period_spin_of] in *;
    try congruence; open_position H; reflexivity.
Qed.

(** X18. With spin disabled ([ctx.spin] unset or false) every registry entry
    other than [yaw_only] keeps the yaw at 0 at all times. *)
Theorem yaw_zero_without_spin
    (k : TrajectoryType) (t : R) (ctx : TrajContext) (v : Vec4) :
  k <> YAW_ONLY -> truthy (spin ctx) = false ->
  TRAJ_REGISTRY k t ctx = Ok v ->
  vyaw v = 0.
Proof.
  intros Hy Hspin H.
  assert (Hk : k = HOVER \/ k <> HOVER)
    by (destruct k; (now left) || (right; discriminate)).
  destruct Hk as [-> | Hh].
  - cbn [TRAJ_REGISTRY] in H. apply hover_ok in H as [Hget _].
    now apply hover_dict_yaw in Hget.
  - rewrite (position_yaw k t ctx v Hh Hy H).
    unfold omega_spin_of. rewrite Hspin. lra.
Qed.

Lemma yaw_zero_without_spin_witness :
  vyaw (mkVec4 0.0 0.0 (-0.9) 0.0) = 0.
Proof.
  apply (yaw_zero_without_spin HOVER 0
           (mkTrajContext true None None None None));
    [ discriminate | reflexivity | reflexivity ].
Defined.

(** X19. With spin enabled the circles, figure-eights, helix, sawtooth and
    triangle turn the yaw by one full turn every spin period, 20 seconds (30
    for [helix] and [sawtooth]); [double_speed] does not change that rate. *)
Theorem yaw_full_turn_with_spin
    (k : TrajectoryType) (t : R) (ctx : TrajContext) (v v' : Vec4) :
  k <> HOVER -> k <> YAW_ONLY -> truthy (spin ctx) = true ->
  TRAJ_REGISTRY k t ctx = Ok v ->
  TRAJ_REGISTRY k (t + period_spin_of k) ctx = Ok v' ->
  vyaw v' = vyaw v + 2 * PI.
Proof.
  intros Hh Hy Hspin H H'.
  rewrite (position_yaw k t ctx v Hh Hy H).
  rewrite (position_yaw k _ ctx v' Hh Hy H').
  unfold omega_spin_of. rewrite Hspin.
  assert (HP : 0 < period_spin_of k)
    by (unfold period_spin_of; destruct k; lra).
  field. lra.
Qed.

Lemma yaw_full_turn_with_spin_witness :
  exists v v' : Vec4,
    circle_horizontal 0 (mkTrajContext true None (Some true) None None)
      = Ok v /\
    circle_horizontal (0 + 20.0)
      (mkTrajContext true None (Some true) None None) = Ok v' /\
    vyaw v' = vyaw v + 2 * PI.
Proof.
  do 2 eexists. split; [ reflexivity | split; [ reflexivity | ] ].
  apply (yaw_full_turn_with_spin CIRCLE_HORIZONTAL 0
           (mkTrajContext true None (Some true) None None));
    try discriminate; reflexivity.
Defined.

(** ** The triangle *)

Lemma triangle_h_sqr : triangle_h ^ 2 = 0.8 ^ 2 - 0.4 ^ 2.
Proof.
  unfold triangle_h, triangle_side_length.
  rewrite pow2_sqrt by lra. lra.
Qed.

(** X20. The three vertices of [triangle] are the corners of an equilateral
    triangle of side [side_length = 0.8]: any two different vertices are
    0.8 apart. *)
Theorem triangle_equilateral (i j : Z) :
  (0 <= i < 3)%Z -> (0 <= j < 3)%Z -> i <> j ->
  dist2 (row triangle_points i) (row triangle_points j)
  = triangle_side_length ^ 2.
Proof.
  intros Hi Hj Hij. pose proof triangle_h_sqr as Hh.
  assert (Hci : (i = 0 \/ i = 1 \/ i = 2)%Z) by lia.
  assert (Hcj : (j = 0 \/ j = 1 \/ j = 2)%Z) by lia.
  destruct Hci as [-> | [-> | ->]]; destruct Hcj as [-> | [-> | ->]];
    try congruence;
    unfold dist2; eval_rows; unfold triangle_side_length; nra.
Qed.

Lemma triangle_equilateral_witness :
  dist2 (row triangle_points 0) (row triangle_points 2)
  = triangle_side_length ^ 2.
Proof. apply (triangle_equilateral 0 2); lia. Defined.

(** ** Horizon utilities with velocities *)

Lemma mapM_raise_head {A B : Type} (g : A -> result B) (d : A) (e : exn)
    (l : list A) :
  l <> [] -> g (nth 0 l d) = Raise e -> mapM g l = Raise e.
Proof.
  destruct l as [ | a l ]; [ congruence | ].
  intros _ H. cbn [nth] in H. cbn [mapM]. now rewrite H.
Qed.

Lemma spec_sample_first (t0 h : R) (n : Z) : spec_sample t0 h n 0 = t0.
Proof.
  unfold spec_sample. destruct (n =? 1)%Z; [ reflexivity | ].
  cbn [INR]. unfold Rdiv. ring.
Qed.

Section HorizonVelocity.

Variable jacfwd : (R -> result Vec4) -> R -> result Vec4.
Variables (f : TrajectoryFunc) (ctx : TrajContext).

Lemma pos_vel_ok (t : R) (p v : Vec4) :
  get_pos_vel_fn jacfwd f ctx t = Ok (p, v) <->
  f t ctx = Ok p /\ get_velocity_fn jacfwd f ctx t = Ok v.
Proof.
  unfold get_pos_vel_fn, get_velocity_fn.
  destruct (f t ctx) as [p' | e]; cbn [bind].
  - destruct (jacfwd (fun t_ => f t_ ctx) t) as [v' | e]; cbn [bind].
    + split; [ intros [= -> ->]; now split | intros [[= ->] [= ->]] ];
        reflexivity.
    + split; [ discriminate | intros [_ H]; discriminate H ].
  - split; [ discriminate | intros [H _]; discriminate H ].
Qed.

Lemma with_velocity_unfold (t0 h : R) (n : Z) :
  (1 <= n)%Z ->
  exists ts : list R,
    length ts = Z.to_nat n /\
    (forall k : nat, (k < Z.to_nat n)%nat ->
       nth k ts 0 = spec_sample t0 h n k) /\
    generate_horizon_positions_body f ctx t0 h n
    = mapM (fun t => f t ctx) ts /\
    generate_horizon_with_velocity jacfwd f ctx t0 h n
    = (samples <- mapM (get_pos_vel_fn jacfwd f ctx) ts ;;
       Ok (split samples)).
Proof.
  intros Hn. destruct (horizon_samples t0 h n Hn) as (ts & Hts & Hlen & Hnth).
  assert (Hne : ts <> []) by (intros ->; cbn [length] in Hlen; lia).
  exists ts. split; [ exact Hlen | split; [ exact Hnth | split ] ].
  - unfold generate_horizon_positions_body. rewrite Hts. cbn [bind].
    now apply vmap_nonempty.
  - unfold generate_horizon_with_velocity.
    destruct (Z.leb_spec n 0); [ lia | ]. rewrite Hts. cbn [bind].
    rewrite vmap_nonempty by exact Hne.
    fold (get_pos_vel_fn jacfwd f ctx).
    destruct (mapM (get_pos_vel_fn jacfwd f ctx) ts) as [samples | e];
      cbn [bind]; [ | reflexivity ].
    now destruct (split samples).
Qed.

End HorizonVelocity.

(** X21. For [num_steps = n >= 1], [generate_horizon_with_velocity] returns the
    pair [(ps, vs)] exactly when both have [n] rows and, at every sample
    [k < n], row [k] of [ps]
    is the position [f] returns and row [k] of [vs] is what the velocity
    function of [get_velocity_fn] returns there. *)
Theorem horizon_with_velocity_rows
    (jacfwd : (R -> result Vec4) -> R -> result Vec4)
    (f : TrajectoryFunc) (ctx : TrajContext) (t0 h : R) (n : Z)
    (ps vs : list Vec4) :
  (1 <= n)%Z ->
  (generate_horizon_with_velocity jacfwd f ctx t0 h n = Ok (ps, vs) <->
   length ps = Z.to_nat n /\ length vs = Z.to_nat n /\
   forall k : nat, (k < Z.to_nat n)%nat ->
     f (spec_sample t0 h n k) ctx = Ok (nth k ps zero4) /\
     get_velocity_fn jacfwd f ctx (spec_sample t0 h n k)
     = Ok (nth k vs zero4)).
Proof.
  intros Hn.
  destruct (with_velocity_unfold jacfwd f ctx t0 h n Hn)
    as (ts & Hlen & Hnth & _ & ->).
  split.
  - destruct (mapM (get_pos_vel_fn jacfwd f ctx) ts) as [samples | e] eqn:E;
      cbn [bind]; [ | discriminate ].
    intros [= Hsplit].
    apply (mapM_ok_nth _ 0 (zero4, zero4)) in E as [Hl Hk].
    assert (Hps : ps = fst (split samples)) by now rewrite Hsplit.
    assert (Hvs : vs = snd (split samples)) by now rewrite Hsplit.
    split; [ rewrite Hps, length_fst_split; lia | ].
    split; [ rewrite Hvs, length_snd_split; lia | ].
    intros k Hlt. rewrite <- Hnth by exact Hlt.
    apply pos_vel_ok. rewrite Hk by lia.
    now rewrite split_nth, <- Hps, <- Hvs.
  - intros (Hlp & Hlv & Hk).
    assert (E : mapM (get_pos_vel_fn jacfwd f ctx) ts = Ok (combine ps vs)).
    { apply (mapM_ok_nth _ 0 (zero4, zero4)). split.
      - rewrite length_combine. lia.
      - intros k Hlt. rewrite combine_nth by lia.
        apply pos_vel_ok. rewrite Hnth by lia. apply Hk. lia. }
    rewrite E. cbn [bind]. now rewrite combine_split by lia.
Qed.

Lemma horizon_with_velocity_rows_witness :
  generate_horizon_with_velocity (fun g t => g t) hover
    (mkTrajContext true None None None None) 0 1 2
  = Ok ([ mkVec4 0.0 0.0 (-0.9) 0.0; mkVec4 0.0 0.0 (-0.9) 0.0 ],
        [ mkVec4 0.0 0.0 (-0.9) 0.0; mkVec4 0.0 0.0 (-0.9) 0.0 ]).
Proof.
  apply (horizon_with_velocity_rows (fun g t => g t) hover
           (mkTrajContext true None None None None) 0 1 2); [ lia | ].
  split; [ reflexivity | split; [ reflexivity | ] ].
  intros [ | [ | k ] ] Hk; [ split; reflexivity | split; reflexivity | lia ].
Defined.

(** X23. An exception of the position function is the exception of the batch:
    for [num_steps >= 1], if [f] raises at the start time,
    [generate_horizon_with_velocity] raises the same exception, whatever the
    horizon and the number of steps. *)
Theorem horizon_error_propagates
    (jacfwd : (R -> result Vec4) -> R -> result Vec4)
    (f : TrajectoryFunc) (ctx : TrajContext) (t0 h : R) (n : Z) (e : exn) :
  (1 <= n)%Z -> f t0 ctx = Raise e ->
  generate_horizon_with_velocity jacfwd f ctx t0 h n = Raise e.
Proof.
  intros Hn He.
  destruct (with_velocity_unfold jacfwd f ctx t0 h n Hn)
    as (ts & Hlen & Hnth & _ & ->).
  assert (Hne : ts <> []) by (intros ->; cbn [length] in Hlen; lia).
  assert (H0 : nth 0 ts 0 = t0)
    by (rewrite Hnth by lia; apply spec_sample_first).
  rewrite (mapM_raise_head _ 0 e); [ reflexivity | exact Hne | ].
  unfold get_pos_vel_fn. now rewrite H0, He.
Qed.

Lemma horizon_error_propagates_witness :
  generate_horizon_with_velocity (fun g t => g t) hover
    (mkTrajContext true (Some 9%Z) None None None) 0 1 5
  = Raise (HoverNotFound 9).
Proof.
  apply (horizon_error_propagates (fun g t => g t) hover
           (mkTrajContext true (Some 9%Z) None None None) 0 1 5);
    [ lia | reflexivity ].
Defined.

Lemma jit_backend_default_witness :
  exists kwargs' : list (string * nat),
    jit nat (nat * list (string * nat)) nat (fun f kw => (f, kw)) 7%nat
        (Some 0%nat) [ ("static_argnames"%string, 1%nat) ]
      = Wrapped (0%nat, kwargs') /\
    (exists dec,
       jit nat (nat * list (string * nat)) nat (fun f kw => (f, kw)) 7%nat
           None [ ("static_argnames"%string, 1%nat) ] = Decorator dec
       /\ dec 0%nat = (0%nat, kwargs')) /\
    kwargs_get nat kwargs' "backend" =
      Some (match kwargs_get nat [ ("static_argnames"%string, 1%nat) ]
                    "backend" with
            | Some b => b
            | None => 7%nat
            end) /\
    forall k : string, k <> "backend"%string ->
      kwargs_get nat kwargs' k
      = kwargs_get nat [ ("static_argnames"%string, 1%nat) ] k.
Proof.
  apply (jit_backend_default nat (nat * list (string * nat)) nat
           (fun f kw => (f, kw)) 7%nat
           [ ("static_argnames"%string, 1%nat) ] 0%nat).
Defined.
